(** * The bounded-memory aggregating converter of [assessment.ipynb]

    A shallow embedding of the "Data Processing" cell of the notebook: the
    loop that walks [./raw_data], skips every directory that has
    sub-directories, and appends the records of each [.json] / [.csv] file
    of a leaf directory, chunk by chunk, to one gzip artifact
    [processed_data/<basename>.json.gz].

    The cell is effectful straight-line Python.  It is embedded as a
    computation in a small monad [io] of actions and exceptions: a
    computation performs a sequence of input/output actions (lines
    printed, source files read, gzip streams opened, written and closed)
    and then returns or raises.  What the actions leave in the output
    directory is obtained by replaying them on its listing.

    The library calls of the cell are treated in two ways.

    - [os.path.basename], [os.path.join], [os.path.splitext] are
      transcribed from CPython's [posixpath] / [genericpath]; [os.walk] is
      the top-down traversal, the directory itself first, then its
      sub-directories in listing order; [gzip.open (path, "ab")] creates the
      file when missing and appends otherwise, the content of an artifact
      being kept decompressed, as the sequence of the records written to it.

    - pandas is a parameter.  What [pd.read_json (lines=True, chunksize=n)],
      [pd.read_csv (chunksize=n)] and [df.to_json (orient="records",
      lines=True)] make of a text (which lines they skip, how they name the
      columns, which values they coerce, when they raise) is decided by
      pandas and by nothing in the notebook.  The class [Pandas] only fixes
      their shape: a reader either raises at the call or hands out a
      sequence of frames, each of which is decoded, or fails to be, when the
      loop asks for it; a frame serialises to a sequence of JSON objects.
      Every statement about the cell holds for every such library.

    The examples are run with one particular library, [sample_pandas],
    described where it is defined. *)

From stdpp Require Import gmap strings list fin_maps.
From Equations Require Import Equations.
From Stdlib Require Import ZArith Ascii.

Local Open Scope string_scope.
Local Open Scope list_scope.

(** ** [posixpath]: the three path functions the cell calls *)

Module posixpath.
Local Open Scope Z_scope.

(** [p.rfind(c)]: index of the last occurrence of [c], [-1] when absent. *)
Fixpoint rfind (c : ascii) (p : string) : Z :=
  match p with
  | EmptyString => -1
  | String a r =>
      let i := rfind c r in
      if 0 <=? i then i + 1
      else if Ascii.eqb a c then 0 else -1
  end.

(** [p[n:]] and [p[:n]] for a non-negative [n]. *)
Fixpoint slice_from (n : nat) (p : string) : string :=
  match n, p with
  | O, _ => p
  | S _, EmptyString => EmptyString
  | S k, String _ r => slice_from k r
  end.

Fixpoint slice_to (n : nat) (p : string) : string :=
  match n, p with
  | O, _ => EmptyString
  | S _, EmptyString => EmptyString
  | S k, String a r => String a (slice_to k r)
  end.

Definition startswith (c : ascii) (p : string) : bool :=
  match p with
  | String a _ => Ascii.eqb a c
  | EmptyString => false
  end.

Fixpoint endswith (c : ascii) (p : string) : bool :=
  match p with
  | EmptyString => false
  | String a EmptyString => Ascii.eqb a c
  | String _ r => endswith c r
  end.

(** [def basename(p): i = p.rfind('/') + 1; return p[i:]] *)
Definition basename (p : string) : string :=
  let i := rfind "/"%char p + 1 in
  slice_from (Z.to_nat i) p.

(** [os.path.join(a, b)] with one component [b]. *)
Definition join (a b : string) : string :=
  if startswith "/"%char b then b
  else if (String.length a =? 0)%nat || endswith "/"%char a then a +:+ b
  else a +:+ "/" +:+ b.

(** The [while filenameIndex < dotIndex] loop of [genericpath._splitext]:
    [steps] is the number of iterations left, [dotIndex - filenameIndex].
    It answers [true] when a character other than the dot is met, which
    is where the Python loop returns the split. *)
Fixpoint scan_leading_dots (p : string) (filenameIndex : nat) (steps : nat) : bool :=
  match steps with
  | O => false
  | S k =>
      match String.get filenameIndex p with
      | Some a =>
          if negb (Ascii.eqb a "."%char) then true
          else scan_leading_dots p (S filenameIndex) k
      | None => true
      end
  end.

(** [os.path.splitext(p)], i.e. [genericpath._splitext(p, '/', None, '.')]. *)
Definition splitext (p : string) : string * string :=
  let sepIndex := rfind "/"%char p in
  let dotIndex := rfind "."%char p in
  if (sepIndex <? dotIndex)
     && scan_leading_dots p (Z.to_nat (sepIndex + 1))
                          (Z.to_nat (dotIndex - (sepIndex + 1)))
  then (slice_to (Z.to_nat dotIndex) p, slice_from (Z.to_nat dotIndex) p)
  else (p, EmptyString).

End posixpath.

(** ** JSON objects, exceptions *)

(** A JSON scalar.  Every value the cell moves around is a flat object of
    scalars. *)
Inductive scalar :=
| SNull
| SNum (z : Z)
| SStr (s : string).

#[global] Instance scalar_eq_dec : EqDecision scalar.
Proof. solve_decision. Defined.

(** A JSON object, one line of an artifact: its fields in the order they
    are written. *)
Definition record : Type := list (string * scalar).

Definition keys (r : record) : list string := r.*1.

(** A Python exception, told by the name of its class. *)
Inductive exn :=
| Exception (class_name : string).

#[global] Instance exn_eq_dec : EqDecision exn.
Proof. solve_decision. Defined.

Definition ValueError : exn := Exception "ValueError".
Definition ParserError : exn := Exception "ParserError".
Definition EmptyDataError : exn := Exception "EmptyDataError".
Definition FileExistsError : exn := Exception "FileExistsError".

Inductive outcome (A : Type) :=
| Done (a : A)
| Raised (e : exn).
Arguments Done {A} a.
Arguments Raised {A} e.

(** ** Input/output actions and the [io] monad *)

(** What the cell does to the outside: lines printed, source files opened
    by a reader, and the gzip stream of an artifact being opened, written
    to, and closed. *)
Inductive event :=
| Print (line : string)
| ReadFile (path : string)
| GzOpen (path : string)
| GzWrite (path : string) (payload : list record)
| GzClose (path : string).

#[global] Instance event_eq_dec : EqDecision event.
Proof. solve_decision. Defined.

(** A computation performs a sequence of actions and then either returns
    or raises.  Nothing in the loop reads back what it wrote, so the
    actions performed are all there is to its effect; what they leave on
    disk is given by [replay] below. *)
Definition io (A : Type) : Type := list event * outcome A.

#[global] Instance io_ret : MRet io := fun A a => ([], Done a).

#[global] Instance io_bind : MBind io := fun A B k c =>
  match c with
  | (evs, Done a) => let '(evs', r) := k a in (evs ++ evs', r)
  | (evs, Raised e) => (evs, Raised e)
  end.

Definition act (e : event) : io unit := ([e], Done tt).

Definition print (line : string) : io unit := act (Print line).

(** An exception raised by a library call propagates. *)
Definition lift {A : Type} (o : outcome A) : io A := ([], o).

(** [for x in l: body(x)] *)
Fixpoint for_each {A : Type} (l : list A) (body : A -> io unit) : io unit :=
  match l with
  | [] => mret tt
  | x :: l' => body x;; for_each l' body
  end.

(** [with gzip.open(path, "ab") as of: body]: the stream is closed when the
    block is left, also by an exception. *)
Definition with_gzip_open (path : string) (body : io unit) : io unit :=
  let '(evs, r) := body in
  (GzOpen path :: evs ++ [GzClose path], r).

(** ** pandas *)

(** The three functions of pandas that the cell calls, and the two kinds
    of values they exchange with it.

    [content] is what a source file holds.  A reader is given the content
    found at the path and the chunk size; it raises at the call, or returns
    an iterator.  The iterator is the sequence of what its successive
    [__next__] give: a frame, or an exception, after which the loop asks
    for nothing more.  What the iterator gives does not depend on what the
    cell writes in between, the output directory being no part of the
    source tree.

    [to_json df] is what [df.to_json(buffer, orient="records", lines=True)]
    leaves in the buffer, line by line. *)
Class Pandas := {
  content : Type;
  DataFrame : Type;
  read_json : content -> nat -> outcome (list (outcome DataFrame));
  read_csv : content -> nat -> outcome (list (outcome DataFrame));
  to_json : DataFrame -> list record
}.

(** What [chunksize] is documented to mean: a frame handed out by a reader
    has at most [chunksize] rows.  Only the statement on the size of the
    buffer relies on it. *)
Class Chunked `{Pandas} : Prop := {
  read_json_chunked c n it df :
    read_json c n = Done it -> Done df ∈ it ->
    (List.length (to_json df) <= n)%nat;
  read_csv_chunked c n it df :
    read_csv c n = Done it -> Done df ∈ it ->
    (List.length (to_json df) <= n)%nat
}.

(** The listing of the output directory: artifact path to decompressed
    content. *)
Abbreviation listing := (gmap string (list record)).

Section model.
Context {pd : Pandas}.

(** ** The source tree and [os.walk] *)

(** A file of the source tree: its name and what it holds. *)
Record file := {
  fname : string;
  body : content
}.

(** A directory: its plain files and its named sub-directories, in the
    order the operating system lists them. *)
#[warnings="-register-all"]
Inductive tree :=
| Dir (files : list file) (subdirs : list (string * tree)).

Definition tree_files (t : tree) : list file :=
  match t with Dir fs _ => fs end.

Definition tree_subdirs (t : tree) : list (string * tree) :=
  match t with Dir _ ds => ds end.

(** One item of the walk: [(root, dirs, files)].  The files come with
    their content, which is what opening [os.path.join(root, f)] gives. *)
Definition walk_item : Type := string * list string * list file.

Fixpoint walk (top : string) (t : tree) : list walk_item :=
  match t with
  | Dir fs ds =>
      (top, ds.*1, fs)
        :: flat_map (fun d => walk (posixpath.join top d.1) d.2) ds
  end.

(** [os.walk(top)] yields nothing when [top] cannot be listed. *)
Definition os_walk (top : string) (fs : option tree) : list walk_item :=
  match fs with
  | Some t => walk top t
  | None => []
  end.

(** ** The conversion cell *)

(** [for df in df_iterator: body(df)]: the next frame is decoded when the
    loop asks for it, after the body has run on the previous ones. *)
Fixpoint for_frames (df_iterator : list (outcome DataFrame))
    (body : DataFrame -> io unit) : io unit :=
  match df_iterator with
  | [] => mret tt
  | next :: rest => df ← lift next; body df;; for_frames rest body
  end.

Definition outdir : string := "processed_data".

(** The body of both [for df in df_iterator] loops: a new buffer, the
    frame serialised into it, and its content written to the stream. *)
Definition write_chunk (of_ : string) (df : DataFrame) : io unit :=
  let buffer := to_json df in
  act (GzWrite of_ buffer).

(** The body of [for f in files]. *)
Definition process_file (chunksize : nat) (root of_ : string) (f : file) : io unit :=
  print ("Processing file " +:+ fname f);;
  let extenstion := (posixpath.splitext (fname f)).2 in
  (if decide (extenstion = ".json") then
     act (ReadFile (posixpath.join root (fname f)));;
     df_iterator ← lift (read_json (body f) chunksize);
     for_frames df_iterator (write_chunk of_)
   else mret tt);;
  (if decide (extenstion = ".csv") then
     act (ReadFile (posixpath.join root (fname f)));;
     df_iterator ← lift (read_csv (body f) chunksize);
     for_frames df_iterator (write_chunk of_)
   else mret tt).

Definition outfile_name (root : string) : string :=
  posixpath.join outdir (posixpath.basename root +:+ ".json.gz").

(** The body of [for root, dirs, files in os.walk("./raw_data")]. *)
Definition process_dir (chunksize : nat) (item : walk_item) : io unit :=
  let '(root, dirs, files) := item in
  match dirs with
  | _ :: _ => mret tt  (* continue *)
  | [] =>
      print ("Writing aggregated results out to " +:+ outfile_name root);;
      with_gzip_open (outfile_name root)
        (for_each files (process_file chunksize root (outfile_name root)))
  end.

(** [shutil.rmtree] and [os.makedirs] on the output directory, whose state
    is [None] when it does not exist. *)
Definition rmtree (d : option listing) : option listing := None.

Definition makedirs (d : option listing) : outcome listing :=
  match d with
  | None => Done ∅
  | Some _ => Raised FileExistsError
  end.

(** What an action leaves on disk.  Opening in append mode creates the
    file when it is missing and keeps its content otherwise; a write goes
    to the end. *)
Definition apply_event (d : listing) (e : event) : listing :=
  match e with
  | GzOpen p => <[p := default [] (d !! p)]> d
  | GzWrite p payload => <[p := default [] (d !! p) ++ payload]> d
  | _ => d
  end.

Definition replay (d : listing) (evs : list event) : listing :=
  foldl apply_event d evs.

(** The state of the world when the cell stops. *)
Record world := {
  result : outcome unit;
  actions : list event;
  processed_data : listing
}.

(** The cell, with the chunk size and the two directories it touches made
    parameters: [raw_data] is the source tree ([None] when absent) and
    [before] the output directory as the run finds it. *)
Definition convert (chunksize : nat) (raw_data : option tree)
    (before : option listing) : world :=
  let d := if bool_decide (is_Some before) then rmtree before else before in
  match makedirs d with
  | Raised e =>
      {| result := Raised e; actions := []; processed_data := ∅ |}
  | Done fresh =>
      let '(evs, r) :=
        for_each (os_walk "./raw_data" raw_data) (process_dir chunksize) in
      {| result := r; actions := evs; processed_data := replay fresh evs |}
  end.

(** The cell as written: [chunksize=1000]. *)
Definition cell := convert 1000.

(** ** Vocabulary of the statements *)

(** Whether the character [c] occurs in [p]. *)
Fixpoint has_char (c : ascii) (p : string) : bool :=
  match p with
  | EmptyString => false
  | String a r => Ascii.eqb a c || has_char c r
  end.

(** The records an action sequence writes to the artifact [p]. *)
Definition payload_for (p : string) (e : event) : list record :=
  match e with
  | GzWrite q payload => if decide (q = p) then payload else []
  | _ => []
  end.

Definition written (p : string) (evs : list event) : list record :=
  flat_map (payload_for p) evs.

(** Whether an action creates or extends the artifact [p]. *)
Definition touches (p : string) (e : event) : bool :=
  match e with
  | GzOpen q | GzWrite q _ => bool_decide (q = p)
  | _ => false
  end.

Definition extension (f : file) : string := (posixpath.splitext (fname f)).2.

(** The frames an iterator hands out before its first failure, and that
    failure. *)
Fixpoint decoded_prefix (it : list (outcome DataFrame)) : list DataFrame :=
  match it with
  | Done df :: rest => df :: decoded_prefix rest
  | _ => []
  end.

Fixpoint first_error (it : list (outcome DataFrame)) : option exn :=
  match it with
  | [] => None
  | Done _ :: rest => first_error rest
  | Raised e :: _ => Some e
  end.

Definition flushed (it : list (outcome DataFrame)) : list record :=
  flat_map to_json (decoded_prefix it).

(** What a loop over the frames of a reader gets out of it: the
    serialisation of the frames handed out before the first failure, one
    after the other, and the exception raised, at the call or by the
    iterator, if any. *)
Definition reader_records (r : outcome (list (outcome DataFrame))) : list record :=
  match r with
  | Done it => flushed it
  | Raised _ => []
  end.

Definition reader_error (r : outcome (list (outcome DataFrame))) : option exn :=
  match r with
  | Done it => first_error it
  | Raised e => Some e
  end.

(** The reader the extension selects, if any. *)
Definition frames_of (chunksize : nat) (f : file)
  : option (outcome (list (outcome DataFrame))) :=
  if decide (extension f = ".json") then Some (read_json (body f) chunksize)
  else if decide (extension f = ".csv") then Some (read_csv (body f) chunksize)
  else None.

(** The records of a file that reach the artifact, and the exception its
    decoding raises, if any. *)
Definition file_records (chunksize : nat) (f : file) : list record :=
  match frames_of chunksize f with
  | Some (Done it) => flushed it
  | _ => []
  end.

Definition file_error (chunksize : nat) (f : file) : option exn :=
  match frames_of chunksize f with
  | Some (Done it) => first_error it
  | Some (Raised e) => Some e
  | None => None
  end.

Definition outcome_of_error (o : option exn) : outcome unit :=
  match o with
  | None => Done tt
  | Some e => Raised e
  end.

(** A file's actions never open or close a stream, and write to no
    artifact but the one they are given. *)
Definition inside_block (of_ : string) (e : event) : Prop :=
  match e with
  | Print _ | ReadFile _ => True
  | GzWrite p _ => p = of_
  | GzOpen _ | GzClose _ => False
  end.

Definition is_leaf (item : walk_item) : bool :=
  match item.1.2 with
  | [] => true
  | _ :: _ => false
  end.

(** The records of a subject: those of its files, in file-list order. *)
Definition subject_records (chunksize : nat) (files : list file) : list record :=
  flat_map (file_records chunksize) files.

(** Whether a walk item is a subject whose artifact is [p], and what it
    adds to [p]. *)
Definition feeds (p : string) (item : walk_item) : bool :=
  is_leaf item && bool_decide (outfile_name item.1.1 = p).

Definition item_records (chunksize : nat) (p : string) (item : walk_item)
  : list record :=
  if feeds p item then subject_records chunksize item.2 else [].

(** The records of an artifact: those of the subjects that feed it, in
    the order of the walk. *)
Definition artifact_records (chunksize : nat) (items : list walk_item)
    (p : string) : list record :=
  flat_map (item_records chunksize p) items.

Definition printed (evs : list event) : list string :=
  omap (fun e => match e with Print s => Some s | _ => None end) evs.

(** [reaches top t path t']: the directory [t'] lies at [path] below the
    directory [t] found at [top], any number of levels down. *)
Inductive reaches : string -> tree -> string -> tree -> Prop :=
| reaches_here top t : reaches top t top t
| reaches_down top t name sub path t' :
    (name, sub) ∈ tree_subdirs t ->
    reaches (posixpath.join top name) sub path t' ->
    reaches top t path t'.




(** A file on which no reader raises, and a directory all of whose files,
    when it is a subject, are such. *)
Definition clean (chunksize : nat) (f : file) : bool :=
  bool_decide (file_error chunksize f = None).

Definition clean_item (chunksize : nat) (item : walk_item) : bool :=
  match item.1.2 with
  | [] => forallb (clean chunksize) item.2
  | _ :: _ => true
  end.

(** What the cell does with the file [f] once its extension has selected a
    reader, [r] being what the reader gives: the file is announced and
    opened, and every frame handed out before the first failure is
    serialised and written to [of_], one write per frame, in order. *)
Definition reader_writes (of_ : string)
    (r : outcome (list (outcome DataFrame))) : list event :=
  match r with
  | Done it => (fun df => GzWrite of_ (to_json df)) <$> decoded_prefix it
  | Raised _ => []
  end.

Definition reading (root of_ : string) (f : file)
    (r : outcome (list (outcome DataFrame))) : io unit :=
  (Print ("Processing file " +:+ fname f)
     :: ReadFile (posixpath.join root (fname f))
     :: reader_writes of_ r,
   outcome_of_error (reader_error r)).

(** What the cell does with a file no reader is selected for. *)
Definition announced (f : file) : io unit :=
  ([Print ("Processing file " +:+ fname f)], Done tt).

(** The actions of the turn of a file in the loop. *)
Definition file_actions (chunksize : nat) (root of_ : string) (f : file)
  : list event :=
  if decide (extension f = ".json")
  then (reading root of_ f (read_json (body f) chunksize)).1
  else if decide (extension f = ".csv")
  then (reading root of_ f (read_csv (body f) chunksize)).1
  else (announced f).1.

(** What the run reports when it stops: what it raised and what it
    printed. *)
Definition error_report (w : world) : outcome unit * list string :=
  (result w, printed (actions w)).

(** The index of the frame of a JSON-lines file whose decoding fails. *)
Fixpoint failing_chunk (it : list (outcome DataFrame)) : option nat :=
  match it with
  | [] => None
  | Done _ :: rest => S <$> failing_chunk rest
  | Raised _ :: _ => Some 0%nat
  end.

Definition failing_json_chunk (chunksize : nat) (f : file) : option nat :=
  match read_json (body f) chunksize with
  | Done it => failing_chunk it
  | Raised _ => None
  end.

(** *** Vocabulary of the further properties *)

(** Whether [s] is made of periods only. *)
Fixpoint all_dots (s : string) : bool :=
  match s with
  | EmptyString => true
  | String a r => Ascii.eqb a "." && all_dots r
  end.

(** The source tree without the files that sit beside sub-directories. *)
Fixpoint prune (t : tree) : tree :=
  match t with
  | Dir fs ds =>
      Dir (match ds with [] => fs | _ :: _ => [] end)
          (map (fun d => (d.1, prune d.2)) ds)
  end.

(** The lines a subject prints when all its files are processed. *)
Definition item_log (item : walk_item) : list string :=
  match item.1.2 with
  | [] =>
      ("Writing aggregated results out to " +:+ outfile_name item.1.1)
        :: ((fun f => "Processing file " +:+ fname f) <$> item.2)
  | _ :: _ => []
  end.

(** The discipline of the gzip streams, checked along a sequence of
    actions: [held] is the stream currently open, if any.  A stream is
    opened only when none is, written to and closed only when it is the
    one open, and a source file is read only while a stream is open. The
    answer is the stream left open at the end, or [None] when the
    discipline is broken. *)
Fixpoint brackets (held : option string) (evs : list event)
  : option (option string) :=
  match evs with
  | [] => Some held
  | Print _ :: rest => brackets held rest
  | ReadFile _ :: rest =>
      match held with
      | Some _ => brackets held rest
      | None => None
      end
  | GzOpen p :: rest =>
      match held with
      | None => brackets (Some p) rest
      | Some _ => None
      end
  | GzWrite p _ :: rest =>
      match held with
      | Some q => if decide (q = p) then brackets held rest else None
      | None => None
      end
  | GzClose p :: rest =>
      match held with
      | Some q => if decide (q = p) then brackets None rest else None
      | None => None
      end
  end.

(** The path an action gives to [gzip], if any, and the path it gives to a
    reader, if any. *)
Definition gzip_path (e : event) : option string :=
  match e with
  | GzOpen p | GzWrite p _ | GzClose p => Some p
  | _ => None
  end.

Definition read_path (e : event) : option string :=
  match e with
  | ReadFile p => Some p
  | _ => None
  end.

(** The number of records an action writes. *)
Definition payload_size (e : event) : nat :=
  match e with
  | GzWrite _ payload => List.length payload
  | _ => 0%nat
  end.

End model.

(** *** The first query of the notebook *)

(** [SELECT COUNT(CustomerId) FROM customers;] and, for comparison, the
    same with [COUNT(DISTINCT CustomerId)].  The table is a list of rows
    and the column a value or NULL ([None]); [COUNT] of a column counts
    the rows where it is not NULL. *)
Section customers_query.
Context {customer : Type} (CustomerId : customer -> option Z).

Definition count_CustomerId (customers : list customer) : nat :=
  List.length (omap CustomerId customers).

Definition count_distinct_CustomerId (customers : list customer) : nat :=
  List.length (remove_dups (omap CustomerId customers)).

(** [CustomerId] is a primary key of the table: never NULL, never twice
    the same. *)
Definition primary_key (customers : list customer) : Prop :=
  Forall (fun c => is_Some (CustomerId c)) customers /\
  NoDup (omap CustomerId customers).
End customers_query.

(** ** A library for the examples *)

(** The examples need a library to run with.  [sample_pandas] is a small
    one of the shape that [Pandas] asks for.  It is not pandas: its frames
    have no column types, so that it coerces no value, and it renames no
    column.  It is meant for texts like those of the examples, on which
    pandas has nothing of the kind to do:
    - in a JSON-lines text every line is blank, or holds a flat object of
      scalars without repeated key, or is no JSON at all;
    - a CSV text has a header of distinct names and, below it, rows of at
      most as many fields as the header, or rows that the tokenizer rejects
      (a longer row is taken as one of these); blank lines, which the CSV
      reader skips, are left out;
    - the scalars of a column are strings, none of them the text of a
      number, of a date or of a missing value, or they are small integers,
      and then no cell of the column is missing.
    A reader takes the lines, or the rows, [chunksize] at a time.  The
    lines of a chunk are decoded together: blank lines are dropped, and one
    line that is no JSON fails the chunk.  The columns of a frame are the
    union of the keys of its objects, in order of first occurrence, or the
    header; a cell that a line or a row does not give is null. *)
Module sample.

(** [list(islice(data, n))] repeated until the data is exhausted. *)
Equations? chunks {A : Type} (n : nat) (l : list A) : list (list A)
  by wf (List.length l) lt :=
  chunks 0%nat _ := [];
  chunks (S m) [] := [];
  chunks (S m) (x :: l') := take (S m) (x :: l') :: chunks (S m) (drop m l').
Proof. rewrite length_drop. lia. Qed.

Inductive json_line :=
| Blank
| Object (o : record)
| Invalid.

(** A text as the two readers see it: [json_lines] for the JSON-lines
    reader; for the CSV reader, [csv_header] is the tokenised first line
    ([None] when there is none) and [csv_rows] the tokenised rows below it
    ([None] for a row the tokenizer rejects). *)
Record text := {
  json_lines : list json_line;
  csv_header : option (list string);
  csv_rows : list (option (list scalar))
}.

(** A frame: its column labels and its rows, each row as long as the list
    of columns. *)
Record frame := {
  columns : list string;
  values : list (list scalar)
}.

(** [r.get(k)], null when the key is absent. *)
Fixpoint field (k : string) (r : record) : scalar :=
  match r with
  | [] => SNull
  | (k', v) :: r' => if decide (k' = k) then v else field k r'
  end.

(** The column labels of a frame built from a list of objects: the keys of
    the first object, then, object after object, the keys not met before. *)
Definition add_keys (cols : list string) (r : record) : list string :=
  cols ++ filter (fun k => k ∉ cols) (keys r).

Definition union_keys (rs : list record) : list string :=
  foldl add_keys [] rs.

Definition frame_of_records (rs : list record) : frame :=
  let cols := union_keys rs in
  {| columns := cols; values := (fun r => (fun c => field c r) <$> cols) <$> rs |}.

(** The objects of the lines of a chunk, blank lines apart; [None] when a
    line is no JSON. *)
Fixpoint objects (ls : list json_line) : option (list record) :=
  match ls with
  | [] => Some []
  | Blank :: rest => objects rest
  | Object o :: rest => cons o <$> objects rest
  | Invalid :: _ => None
  end.

Definition json_chunk (ls : list json_line) : outcome frame :=
  match objects ls with
  | Some rs => Done (frame_of_records rs)
  | None => Raised ValueError
  end.

(** A row under a header: a short row is filled with nulls. *)
Definition csv_row (header : list string) (r : option (list scalar))
  : option (list scalar) :=
  match r with
  | Some cells =>
      if (List.length cells <=? List.length header)%nat
      then Some (cells ++ replicate (List.length header - List.length cells) SNull)
      else None
  | None => None
  end.

Definition csv_chunk (header : list string) (rows : list (option (list scalar)))
  : outcome frame :=
  match mapM (csv_row header) rows with
  | Some vs => Done {| columns := header; values := vs |}
  | None => Raised ParserError
  end.

Definition json_reader (t : text) (chunksize : nat) : outcome (list (outcome frame)) :=
  match chunksize with
  | O => Raised ValueError
  | S _ => Done (json_chunk <$> chunks chunksize (json_lines t))
  end.

(** The header is read by the call, the rows by the iteration; a text
    with a header and no row gives one frame without rows. *)
Definition csv_reader (t : text) (chunksize : nat) : outcome (list (outcome frame)) :=
  match chunksize with
  | O => Raised ValueError
  | S _ =>
      match csv_header t with
      | None => Raised EmptyDataError
      | Some h =>
          match csv_rows t with
          | [] => Done [Done {| columns := h; values := [] |}]
          | _ :: _ => Done (csv_chunk h <$> chunks chunksize (csv_rows t))
          end
      end
  end.

(** One object per row, keyed by the columns. *)
Definition serialize (df : frame) : list record :=
  (fun row => zip (columns df) row) <$> values df.

End sample.

Definition sample_pandas : Pandas := {|
  content := sample.text;
  DataFrame := sample.frame;
  read_json := sample.json_reader;
  read_csv := sample.csv_reader;
  to_json := sample.serialize
|}.

(** *** Sample source trees *)

Section samples.
#[local] Existing Instance sample_pandas.

(** A file holding JSON lines, a file holding a CSV table, and a file
    neither reader is given. *)
Definition json_text (name : string) (ls : list sample.json_line) : file :=
  {| fname := name;
     body := {| sample.json_lines := ls; sample.csv_header := None;
                sample.csv_rows := [] |} |}.

Definition csv_text (name : string) (header : list string)
    (rows : list (option (list scalar))) : file :=
  {| fname := name;
     body := {| sample.json_lines := [sample.Invalid];
                sample.csv_header := Some header; sample.csv_rows := rows |} |}.

Definition plain_text (name : string) : file :=
  {| fname := name;
     body := {| sample.json_lines := [sample.Invalid];
                sample.csv_header := Some []; sample.csv_rows := [] |} |}.

(** [./raw_data/tracks] with a CSV file of three rows, a JSON-lines file
    of two objects with the same keys, and a text file. *)
Definition tracks_csv : file :=
  csv_text "tracks_0.csv" ["id"; "name"]
    [Some [SNum 1; SStr "one"]; Some [SNum 2; SStr "two"]; Some [SNum 3; SStr "three"]].

Definition tracks_json : file :=
  json_text "tracks_1.json"
    [sample.Object [("id", SNum 4); ("name", SStr "four")];
     sample.Object [("id", SNum 5); ("name", SStr "five")]].

Definition sample_tree : tree :=
  Dir [] [("tracks", Dir [tracks_json; tracks_csv; plain_text "notes.txt"] [])].

(** [./raw_data/tracks] with one JSON-lines file whose two objects have
    different keys. *)
Definition mixed_json : file :=
  json_text "tracks_2.json"
    [sample.Object [("a", SStr "x")]; sample.Object [("b", SStr "y")]].

Definition mixed_keys_tree : tree :=
  Dir [] [("tracks", Dir [mixed_json] [])].


(** Two directories named [x], one below [a] and one below [b]. *)
Definition deep_tree : tree :=
  Dir [] [("a", Dir [] [("x", Dir [tracks_json] [])]);
          ("b", Dir [] [("x", Dir [tracks_csv] [])])].

(** A JSON-lines file whose first line is no JSON, and one whose line
    1001 is. *)
Definition bad_first : file := json_text "tracks_3.json" [sample.Invalid].

Definition bad_late : file :=
  json_text "tracks_3.json"
    (replicate 1000 (sample.Object [("id", SNum 1)]) ++ [sample.Invalid]).

(** [./raw_data/tracks] with a sound CSV file, then a JSON-lines file
    whose second line is no JSON, then a sound JSON-lines file. *)
Definition bad_second : file :=
  json_text "tracks_4.json" [sample.Object [("id", SNum 4)]; sample.Invalid].

Definition failing_tree : tree :=
  Dir [] [("tracks", Dir [tracks_csv; bad_second; tracks_json] [])].

End samples.

(** * Facts about paths, loops and actions *)

(** ** Facts about [io] computations *)

Section io_facts.
Context {A : Type}.
Implicit Types (l : list A) (body : A -> io unit).

Lemma seq_pair (c : io unit) (k : io unit) :
  (c;; k) = match c.2 with
            | Done _ => (c.1 ++ k.1, k.2)
            | Raised e => (c.1, Raised e)
            end.
Proof.
  destruct c as [evs [[]|e]], k as [evs' r]; reflexivity.
Qed.

Lemma for_each_cons x l body :
  for_each (x :: l) body =
    match (body x).2 with
    | Done _ => ((body x).1 ++ (for_each l body).1, (for_each l body).2)
    | Raised e => ((body x).1, Raised e)
    end.
Proof. cbn [for_each]. apply seq_pair. Qed.

(** A loop whose every iteration returns performs all of them, in
    order. *)
Lemma for_each_done l body :
  Forall (fun x => (body x).2 = Done tt) l ->
  for_each l body = (flat_map (fun x => (body x).1) l, Done tt).
Proof.
  induction 1 as [|x l Hx _ IH]; [reflexivity|].
  rewrite for_each_cons, Hx, IH. reflexivity.
Qed.

(** A loop that returns has had every iteration return. *)
Lemma for_each_returns l body u :
  (for_each l body).2 = Done u ->
  Forall (fun x => (body x).2 = Done tt) l.
Proof.
  induction l as [|x l IH]; [constructor|].
  rewrite for_each_cons.
  destruct (body x).2 as [[]|e] eqn:Hx; cbn; [|discriminate].
  intros H. constructor; [assumption|]. apply IH, H.
Qed.

(** A loop that raises stopped in its first failing iteration: the
    iterations before ran in full, the ones after not at all. *)
Lemma for_each_raises l body e :
  (for_each l body).2 = Raised e ->
  exists l1 x l2,
    l = l1 ++ x :: l2 /\
    Forall (fun y => (body y).2 = Done tt) l1 /\
    (body x).2 = Raised e /\
    (for_each l body).1 = flat_map (fun y => (body y).1) l1 ++ (body x).1.
Proof.
  induction l as [|x l IH]; [discriminate|].
  rewrite for_each_cons.
  destruct (body x).2 as [[]|e'] eqn:Hx; cbn.
  - intros H. destruct (IH H) as (l1 & y & l2 & -> & Hl1 & Hy & Hevs).
    exists (x :: l1), y, l2. repeat split; try assumption.
    + constructor; assumption.
    + cbn. rewrite Hevs, (assoc_L (++)). reflexivity.
  - intros [= ->]. exists [], x, l. repeat split; try assumption. constructor.
Qed.

Lemma for_each_app l1 l2 body :
  for_each (l1 ++ l2) body = (for_each l1 body;; for_each l2 body).
Proof.
  induction l1 as [|x l1 IH]; cbn [app for_each].
  - destruct (for_each l2 body) as [evs r]. reflexivity.
  - rewrite IH. rewrite !seq_pair.
    destruct (body x) as [evs [[]|e]]; cbn; [|reflexivity].
    destruct (for_each l1 body) as [evs1 [[]|e1]]; cbn; [|reflexivity].
    rewrite (assoc_L (++)). reflexivity.
Qed.
End io_facts.

(** ** What a sequence of actions leaves on disk *)

Lemma written_app p evs1 evs2 :
  written p (evs1 ++ evs2) = written p evs1 ++ written p evs2.
Proof. apply flat_map_app. Qed.

Lemma replay_app d evs1 evs2 :
  replay d (evs1 ++ evs2) = replay (replay d evs1) evs2.
Proof. apply foldl_app. Qed.

Lemma written_untouched p evs :
  existsb (touches p) evs = false -> written p evs = [].
Proof.
  induction evs as [|e evs IH]; [reflexivity|].
  cbn [existsb]. intros [He Hevs]%orb_false_iff.
  cbn [written flat_map]. fold (written p evs). rewrite (IH Hevs).
  destruct e; cbn in *; try reflexivity.
  case_bool_decide; [discriminate|]. rewrite decide_False by assumption.
  reflexivity.
Qed.

(** The content of an artifact after a sequence of actions: what it held
    before, followed by everything written to it, in the order written. *)
Lemma replay_lookup (d : listing) evs p :
  replay d evs !! p =
    if existsb (touches p) evs
    then Some (default [] (d !! p) ++ written p evs)
    else d !! p.
Proof.
  revert d. induction evs as [|e evs IH]; intros d; [reflexivity|].
  change (replay d (e :: evs)) with (replay (apply_event d e) evs).
  rewrite IH. cbn [existsb written flat_map].
  fold (written p evs).
  destruct (existsb (touches p) evs) eqn:Hevs.
  - rewrite orb_true_r.
    destruct e as [s|q|q|q pl|q]; cbn [apply_event payload_for app];
      try reflexivity.
    + destruct (decide (q = p)) as [->|Hq].
      * rewrite lookup_insert_eq. reflexivity.
      * rewrite lookup_insert_ne by assumption. reflexivity.
    + destruct (decide (q = p)) as [->|Hq].
      * rewrite lookup_insert_eq. cbn [default].
        rewrite (assoc_L (++)). reflexivity.
      * rewrite lookup_insert_ne by assumption. reflexivity.
  - rewrite orb_false_r, (written_untouched _ _ Hevs).
    destruct e as [s|q|q|q pl|q]; cbn [apply_event touches payload_for app];
      try reflexivity.
    + case_bool_decide as Hq.
      * subst q. rewrite lookup_insert_eq, !(right_id_L [] (++)). reflexivity.
      * rewrite lookup_insert_ne by assumption. reflexivity.
    + case_bool_decide as Hq.
      * subst q. rewrite lookup_insert_eq, decide_True by reflexivity.
        rewrite !(right_id_L [] (++)). reflexivity.
      * rewrite lookup_insert_ne by assumption. reflexivity.
Qed.

(** Appending is monotonic: whatever an artifact holds at some point of a
    run is a prefix of what it holds at any later point. *)
Lemma replay_monotonic (d : listing) evs later p content :
  replay d evs !! p = Some content ->
  exists more, replay d (evs ++ later) !! p = Some (content ++ more).
Proof.
  intros H. rewrite replay_app, replay_lookup, H. cbn [default].
  destruct (existsb _ later); [eauto|].
  exists []. rewrite (right_id_L [] (++)). reflexivity.
Qed.

(** ** Facts about paths *)

Module path_facts.
Import posixpath.
Local Open Scope Z_scope.

Lemma rfind_ge c p : -1 <= rfind c p.
Proof.
  induction p as [|a r IH]; cbn [rfind]; [lia|].
  destruct (0 <=? rfind c r) eqn:H; [lia|].
  destruct (Ascii.eqb a c); lia.
Qed.

Lemma rfind_absent c p : rfind c p < 0 -> has_char c p = false.
Proof.
  induction p as [|a r IH]; cbn [rfind has_char]; [reflexivity|].
  destruct (0 <=? rfind c r) eqn:H.
  - apply Z.leb_le in H. lia.
  - apply Z.leb_gt in H. destruct (Ascii.eqb a c); [lia|].
    intros _. apply IH, H.
Qed.

Lemma absent_rfind c p : has_char c p = false -> rfind c p = -1.
Proof.
  induction p as [|a r IH]; cbn [rfind has_char]; [reflexivity|].
  intros [Ha Hr]%orb_false_iff. rewrite (IH Hr), Ha. reflexivity.
Qed.

(** The last separator of [a/b], when [b] has none. *)
Lemma rfind_last c a b :
  has_char c b = false ->
  rfind c (a +:+ String c b) = Z.of_nat (String.length a).
Proof.
  intros Hb. induction a as [|x a IH].
  - change (rfind c (String c b) = 0). cbn [rfind].
    rewrite (absent_rfind _ _ Hb). cbn. rewrite Ascii.eqb_refl. reflexivity.
  - change (rfind c (String x (a +:+ String c b))
            = Z.of_nat (S (String.length a))).
    cbn [rfind]. rewrite IH.
    destruct (0 <=? Z.of_nat (String.length a)) eqn:H; [lia|].
    apply Z.leb_gt in H. lia.
Qed.

Lemma slice_from_app a c b :
  slice_from (S (String.length a)) (a +:+ String c b) = b.
Proof. induction a as [|x a IH]; [reflexivity|exact IH]. Qed.

Lemma basename_after_sep a b :
  has_char "/" b = false -> basename (a +:+ String "/" b) = b.
Proof.
  intros Hb. unfold basename. rewrite (rfind_last _ _ _ Hb).
  replace (Z.to_nat (Z.of_nat (String.length a) + 1))
    with (S (String.length a)) by lia.
  apply slice_from_app.
Qed.

Lemma basename_plain b : has_char "/" b = false -> basename b = b.
Proof. intros Hb. unfold basename. rewrite (absent_rfind _ _ Hb). reflexivity. Qed.

Lemma endswith_split c a :
  endswith c a = true -> exists a', a = a' +:+ String c EmptyString.
Proof.
  induction a as [|x a IH]; [discriminate|].
  cbn [endswith]. destruct a as [|y a].
  - intros ->%Ascii.eqb_eq. exists EmptyString. reflexivity.
  - intros [a' Ha']%IH. exists (String x a').
    change (String x (String y a) = String x (a' +:+ String c EmptyString)).
    f_equal. exact Ha'.
Qed.

Lemma app_assoc_sep a c b :
  (a +:+ String c EmptyString) +:+ b = a +:+ String c b.
Proof.
  induction a as [|x a IH]; [reflexivity|].
  change (String x ((a +:+ String c EmptyString) +:+ b)
          = String x (a +:+ String c b)).
  f_equal. exact IH.
Qed.

Lemma startswith_absent c b : has_char c b = false -> startswith c b = false.
Proof. destruct b; cbn; [reflexivity|]. intros [H _]%orb_false_iff. exact H. Qed.

(** The base name of a directory reached by [os.path.join(top, name)] is
    [name]. *)
Lemma basename_join top name :
  has_char "/" name = false -> basename (join top name) = name.
Proof.
  intros Hn. unfold join. rewrite (startswith_absent _ _ Hn).
  destruct (String.length top =? 0)%nat eqn:Hlen; cbn [orb].
  - destruct top; [|discriminate]. apply basename_plain, Hn.
  - destruct (endswith "/" top) eqn:Hend.
    + destruct (endswith_split _ _ Hend) as [a' ->].
      rewrite app_assoc_sep. apply basename_after_sep, Hn.
    + apply basename_after_sep, Hn.
Qed.

(** A base name holds no separator. *)
Lemma basename_no_sep p : has_char "/" (basename p) = false.
Proof.
  unfold basename. induction p as [|x r IH]; [reflexivity|].
  cbn [rfind]. destruct (0 <=? rfind "/" r) eqn:H.
  - apply Z.leb_le in H.
    replace (Z.to_nat (rfind "/" r + 1 + 1)) with (S (Z.to_nat (rfind "/" r + 1)))
      by lia.
    exact IH.
  - apply Z.leb_gt in H. pose proof (rfind_absent _ _ H) as Hr.
    destruct (Ascii.eqb x "/") eqn:Hx.
    + change (has_char "/" r = false). exact Hr.
    + change (Ascii.eqb x "/" || has_char "/" r = false).
      rewrite Hx, Hr. reflexivity.
Qed.

Lemma has_char_app c a b :
  has_char c (a +:+ b) = has_char c a || has_char c b.
Proof.
  induction a as [|x a IH]; [reflexivity|].
  change (Ascii.eqb x c || has_char c (a +:+ b)
          = Ascii.eqb x c || has_char c a || has_char c b).
  rewrite IH, orb_assoc. reflexivity.
Qed.
End path_facts.

(** Every artifact lies directly in the output directory and is named
    after the base name of its subject directory. *)
Lemma outfile_name_eq root :
  outfile_name root = "processed_data/" +:+ posixpath.basename root +:+ ".json.gz".
Proof.
  unfold outfile_name, posixpath.join, outdir.
  rewrite path_facts.startswith_absent; [reflexivity|].
  rewrite path_facts.has_char_app, path_facts.basename_no_sep. reflexivity.
Qed.

(** ** How [os.path.splitext] cuts a name *)

Module splitext_facts.
Import posixpath.
Local Open Scope Z_scope.

Lemma app_empty_r (p : string) : p +:+ EmptyString = p.
Proof.
induction p as [|a r IH]; [reflexivity|].
change (String a (r +:+ EmptyString) = String a r). rewrite IH. reflexivity.
Qed.

Lemma slice_to_from n p : slice_to n p +:+ slice_from n p = p.
Proof.
revert p. induction n as [|n IH]; intros [|a r]; try reflexivity.
change (String a (slice_to n r +:+ slice_from n r) = String a r).
rewrite IH. reflexivity.
Qed.

(** From its last occurrence on, a string reads [c] and then no [c]. *)
Lemma slice_at_rfind c p :
  0 <= rfind c p ->
  exists rest,
    slice_from (Z.to_nat (rfind c p)) p = String c rest /\
    has_char c rest = false.
Proof.
induction p as [|a r IH]; cbn [rfind]; [lia|].
destruct (0 <=? rfind c r) eqn:Hi.
- apply Z.leb_le in Hi. intros _. destruct (IH Hi) as (rest & Hrest & Hc).
  exists rest. split; [|exact Hc].
  replace (Z.to_nat (rfind c r + 1)) with (S (Z.to_nat (rfind c r))) by lia.
  exact Hrest.
- apply Z.leb_gt in Hi. destruct (Ascii.eqb a c) eqn:Ha; [|lia].
  intros _. apply Ascii.eqb_eq in Ha as ->. exists r.
  split; [reflexivity|apply path_facts.rfind_absent, Hi].
Qed.

(** Beyond the last occurrence of [c] there is no [c]. *)
Lemma slice_beyond_rfind c p n :
  rfind c p < Z.of_nat n -> has_char c (slice_from n p) = false.
Proof.
revert n. induction p as [|a r IH]; intros n; [destruct n; reflexivity|].
destruct n as [|n].
- intros H. apply path_facts.rfind_absent. cbn [Z.of_nat] in H. exact H.
- intros H. change (has_char c (slice_from n r) = false). apply IH.
  cbn [rfind] in H. destruct (0 <=? rfind c r) eqn:Hi; [lia|].
  apply Z.leb_gt in Hi. lia.
Qed.

Lemma get_app_here pre a rest :
  String.get (String.length pre) (pre +:+ String a rest) = Some a.
Proof. induction pre as [|x pre IH]; [reflexivity|exact IH]. Qed.

(** The scan over the characters before the last period finds a character
    other than a period exactly when they are not all periods. *)
Lemma scan_stem pre stem rest :
  scan_leading_dots (pre +:+ stem +:+ rest) (String.length pre) (String.length stem)
  = negb (all_dots stem).
Proof.
revert pre. induction stem as [|a stem IH]; intros pre; [reflexivity|].
cbn [String.length scan_leading_dots all_dots].
change (String a stem +:+ rest) with (String a (stem +:+ rest)).
rewrite get_app_here. destruct (Ascii.eqb a ".") eqn:Ha; cbn [negb andb];
  [|reflexivity].
rewrite <- (path_facts.app_assoc_sep pre a (stem +:+ rest)).
replace (S (String.length pre))
  with (String.length (pre +:+ String a EmptyString)).
- apply IH.
- clear. induction pre as [|x pre IH]; [reflexivity|].
  change (S (String.length (pre +:+ String a EmptyString))
          = S (S (String.length pre))).
  rewrite IH. reflexivity.
Qed.

Lemma slice_from_length a b : slice_from (String.length a) (a +:+ b) = b.
Proof. induction a as [|x a IH]; [destruct b; reflexivity|exact IH]. Qed.

Lemma app_inj_l a x y : a +:+ x = a +:+ y -> x = y.
Proof.
induction a as [|c a IH]; [intros H; exact H|].
change (String c (a +:+ x) = String c (a +:+ y) -> x = y).
intros [= H]. apply IH, H.
Qed.

Lemma length_app a b :
  String.length (a +:+ b) = (String.length a + String.length b)%nat.
Proof.
induction a as [|c a IH]; [reflexivity|].
change (S (String.length (a +:+ b)) = S (String.length a + String.length b)).
rewrite IH. reflexivity.
Qed.

Lemma app_inj_r x y s : x +:+ s = y +:+ s -> x = y.
Proof.
revert y. induction x as [|c x IH]; intros [|d y] H; [reflexivity| | |].
- apply (f_equal String.length) in H.
  change (String.length s = S (String.length (y +:+ s))) in H.
  rewrite length_app in H. lia.
- apply (f_equal String.length) in H.
  change (S (String.length (x +:+ s)) = String.length s) in H.
  rewrite length_app in H. lia.
- change (String c (x +:+ s) = String d (y +:+ s)) in H.
  injection H as -> H. rewrite (IH _ H). reflexivity.
Qed.
End splitext_facts.

(** X1.  [os.path.splitext] cuts a path in two parts that concatenate to
    the path; the second part is empty, or is a period followed by
    characters among which there is neither a period nor a separator. *)
Theorem splitext_contract (p : string) :
  (posixpath.splitext p).1 +:+ (posixpath.splitext p).2 = p /\
  ((posixpath.splitext p).2 = EmptyString \/
   exists e,
     (posixpath.splitext p).2 = String "." e /\
     has_char "." e = false /\ has_char "/" e = false).
Proof.
unfold posixpath.splitext.
destruct ((posixpath.rfind "/" p <? posixpath.rfind "." p)%Z
          && posixpath.scan_leading_dots p _ _) eqn:Hcut; cbn [fst snd].
- apply andb_true_iff in Hcut as [Hlt _]. apply Z.ltb_lt in Hlt.
  pose proof (path_facts.rfind_ge "/" p) as Hsep.
  split; [apply splitext_facts.slice_to_from|]. right.
  destruct (splitext_facts.slice_at_rfind "." p) as (e & He & Hdot); [lia|].
  exists e. split; [exact He|]. split; [exact Hdot|].
  pose proof (splitext_facts.slice_beyond_rfind "/" p
                (Z.to_nat (posixpath.rfind "." p))) as Hno.
  rewrite He in Hno. cbn [has_char] in Hno.
  apply orb_false_iff in Hno as [_ Hno]; [exact Hno|lia].
- split; [apply splitext_facts.app_empty_r|left; reflexivity].
Qed.

(** X3.  Two subject directories write to the same artifact exactly when
    they have the same base name. *)
Theorem same_artifact_iff_same_basename (root1 root2 : string) :
  outfile_name root1 = outfile_name root2 <->
  posixpath.basename root1 = posixpath.basename root2.
Proof.
split.
- rewrite !outfile_name_eq. intros H.
  apply splitext_facts.app_inj_l in H.
  apply splitext_facts.app_inj_r in H. exact H.
- intros H. unfold outfile_name. rewrite H. reflexivity.
Qed.

(** ** The first query *)

Lemma remove_dups_length {A : Type} `{EqDecision A} (l : list A) :
  (List.length (remove_dups l) <= List.length l)%nat.
Proof.
induction l as [|x l IH]; [reflexivity|].
cbn [remove_dups]. destruct (decide_rel elem_of x l); cbn [List.length]; lia.
Qed.

Lemma remove_dups_NoDup {A : Type} `{EqDecision A} (l : list A) :
  NoDup l -> remove_dups l = l.
Proof.
induction 1 as [|x l Hx _ IH]; [reflexivity|].
cbn [remove_dups]. destruct (decide_rel elem_of x l); [contradiction|].
rewrite IH. reflexivity.
Qed.

(** X19.  As the comment of the query says, when [CustomerId] is a primary
    key of [customers] the plain [COUNT(CustomerId)] is the number of
    different customers, and the number of rows of the table; without that
    it is only an upper bound of the number of different customers. *)
Theorem count_is_distinct_under_primary_key {customer : Type}
    (CustomerId : customer -> option Z) (customers : list customer) :
  (count_distinct_CustomerId CustomerId customers
   <= count_CustomerId CustomerId customers)%nat /\
  (primary_key CustomerId customers ->
   count_CustomerId CustomerId customers
   = count_distinct_CustomerId CustomerId customers /\
   count_CustomerId CustomerId customers = List.length customers).
Proof.
unfold count_CustomerId, count_distinct_CustomerId, primary_key.
split; [apply remove_dups_length|].
intros [Hsome Hnd]. rewrite (remove_dups_NoDup _ Hnd). split; [reflexivity|].
clear Hnd. induction Hsome as [|c cs [id Hid] _ IH]; [reflexivity|].
cbn [omap list_omap]. rewrite Hid. cbn [List.length]. rewrite <- IH. reflexivity.
Qed.

Lemma count_is_distinct_under_primary_key_witness :
  count_CustomerId (fun c : Z * string => Some c.1)
    [(1%Z, "Luis"); (2%Z, "Leonie"); (3%Z, "Luis")]
  = count_distinct_CustomerId (fun c : Z * string => Some c.1)
      [(1%Z, "Luis"); (2%Z, "Leonie"); (3%Z, "Luis")] /\
  count_CustomerId (fun c : Z * string => Some c.1)
    [(1%Z, "Luis"); (2%Z, "Leonie"); (3%Z, "Luis")]
  = List.length [(1%Z, "Luis"); (2%Z, "Leonie"); (3%Z, "Luis")].
Proof.
apply (proj2 (count_is_distinct_under_primary_key
                (fun c : Z * string => Some c.1)
                [(1%Z, "Luis"); (2%Z, "Leonie"); (3%Z, "Luis")])).
split; [repeat constructor; eauto|]. cbn.
repeat (apply NoDup_cons_2;
        [rewrite list_elem_of_In; cbn; intuition congruence|]).
apply NoDup_nil_2.
Defined.

(** * The cell, whatever the library *)

Section cell_facts.
Context {pd : Pandas}.

(** ** What a file contributes *)

Lemma for_frames_eq of_ it :
  for_frames it (write_chunk of_) =
    ((fun df => GzWrite of_ (to_json df)) <$> decoded_prefix it,
     outcome_of_error (first_error it)).
Proof.
  induction it as [|[df|e] it IH]; [reflexivity| |reflexivity].
  cbn [for_frames decoded_prefix first_error fmap list_fmap].
  rewrite IH. reflexivity.
Qed.

Lemma process_file_eq chunksize root of_ f :
  process_file chunksize root of_ f =
    match frames_of chunksize f with
    | None => ([Print ("Processing file " +:+ fname f)], Done tt)
    | Some (Raised e) =>
        ([Print ("Processing file " +:+ fname f);
          ReadFile (posixpath.join root (fname f))], Raised e)
    | Some (Done it) =>
        (Print ("Processing file " +:+ fname f)
           :: ReadFile (posixpath.join root (fname f))
           :: ((fun df => GzWrite of_ (to_json df)) <$> decoded_prefix it),
         outcome_of_error (first_error it))
    end.
Proof.
  unfold process_file, frames_of. fold (extension f).
  destruct (decide (extension f = ".json")) as [Hj|Hj].
  - rewrite decide_False by (rewrite Hj; discriminate).
    destruct (read_json (body f) chunksize) as [it|e]; [|reflexivity].
    cbn. rewrite for_frames_eq. cbn.
    destruct (first_error it); cbn; rewrite ?app_nil_r; reflexivity.
  - destruct (decide (extension f = ".csv")) as [Hc|Hc]; [|reflexivity].
    destruct (read_csv (body f) chunksize) as [it|e]; [|reflexivity].
    cbn. rewrite for_frames_eq. reflexivity.
Qed.

Lemma written_writes of_ p (dfs : list DataFrame) :
  written p ((fun df => GzWrite of_ (to_json df)) <$> dfs) =
    if decide (of_ = p) then flat_map to_json dfs else [].
Proof.
  induction dfs as [|df dfs IH]; [destruct (decide _); reflexivity|].
  cbn [fmap list_fmap written flat_map payload_for].
  fold (written p ((fun df => GzWrite of_ (to_json df)) <$> dfs)).
  rewrite IH. destruct (decide (of_ = p)); reflexivity.
Qed.

Lemma process_file_result chunksize root of_ f :
  (process_file chunksize root of_ f).2 =
    outcome_of_error (file_error chunksize f).
Proof.
  rewrite process_file_eq. unfold file_error.
  destruct (frames_of chunksize f) as [[it|e]|]; reflexivity.
Qed.

Lemma process_file_written chunksize root of_ f p :
  written p (process_file chunksize root of_ f).1 =
    if decide (of_ = p) then file_records chunksize f else [].
Proof.
  rewrite process_file_eq. unfold file_records.
  destruct (frames_of chunksize f) as [[it|e]|]; cbn [fst written flat_map payload_for app];
    try (destruct (decide _); reflexivity).
  apply written_writes.
Qed.

Lemma process_file_inside chunksize root of_ f :
  Forall (inside_block of_) (process_file chunksize root of_ f).1.
Proof.
  rewrite process_file_eq.
  destruct (frames_of chunksize f) as [[it|e]|]; cbn [fst];
    repeat (constructor; [exact I|]); try constructor.
  apply Forall_fmap, Forall_true. intros df. reflexivity.
Qed.

Lemma touches_inside of_ p evs :
  Forall (inside_block of_) evs -> of_ <> p -> existsb (touches p) evs = false.
Proof.
  intros H Hne. induction H as [|e evs He _ IH]; [reflexivity|].
  cbn [existsb]. rewrite IH, orb_false_r.
  destruct e; cbn in *; try reflexivity; try contradiction.
  subst. apply bool_decide_eq_false. assumption.
Qed.

(** ** What the readers give *)

Lemma first_error_none it :
  first_error it = None -> it = Done <$> decoded_prefix it.
Proof.
  induction it as [|[df|e] it IH]; cbn [first_error decoded_prefix fmap list_fmap];
    [reflexivity| |discriminate].
  intros Hit. f_equal. apply IH, Hit.
Qed.

(** A reader that raises nothing has handed out all its frames, and what
    the loop gets out of it is their serialisation, one after the other. *)
Lemma reader_clean r :
  reader_error r = None ->
  exists dfs, r = Done (Done <$> dfs) /\ reader_records r = flat_map to_json dfs.
Proof.
  destruct r as [it|e]; [|discriminate]. cbn [reader_error reader_records].
  intros Hit. exists (decoded_prefix it).
  split; [f_equal; apply first_error_none, Hit|reflexivity].
Qed.

Lemma frames_of_json chunksize f :
  extension f = ".json" ->
  frames_of chunksize f = Some (read_json (body f) chunksize).
Proof. intros Hj. unfold frames_of. rewrite decide_True by assumption. reflexivity. Qed.

Lemma frames_of_csv chunksize f :
  extension f = ".csv" ->
  frames_of chunksize f = Some (read_csv (body f) chunksize).
Proof.
  intros Hc. unfold frames_of.
  rewrite decide_False by (rewrite Hc; discriminate).
  rewrite decide_True by assumption. reflexivity.
Qed.

Lemma frames_of_other chunksize f :
  extension f <> ".json" -> extension f <> ".csv" -> frames_of chunksize f = None.
Proof. intros Hj Hc. unfold frames_of. rewrite !decide_False by assumption. reflexivity. Qed.

Lemma file_of_reader chunksize f r :
  frames_of chunksize f = Some r ->
  file_error chunksize f = reader_error r /\
  file_records chunksize f = reader_records r.
Proof.
  intros Hr. unfold file_error, file_records. rewrite Hr.
  destruct r; split; reflexivity.
Qed.

(** The turn of a file, by what its reader gives. *)
Lemma process_file_reading chunksize root of_ f :
  process_file chunksize root of_ f =
    match frames_of chunksize f with
    | Some r => reading root of_ f r
    | None => announced f
    end.
Proof.
  rewrite process_file_eq.
  destruct (frames_of chunksize f) as [[it|e]|]; reflexivity.
Qed.

Lemma process_file_actions chunksize root of_ f :
  (process_file chunksize root of_ f).1 = file_actions chunksize root of_ f.
Proof.
  rewrite process_file_reading. unfold file_actions, frames_of.
  destruct (decide (extension f = ".json")); [reflexivity|].
  destruct (decide (extension f = ".csv")); reflexivity.
Qed.

(** ** What a subject directory and a whole run contribute *)

Lemma process_dir_skip chunksize root d ds files :
  process_dir chunksize (root, d :: ds, files) = ([], Done tt).
Proof. reflexivity. Qed.

Lemma process_dir_leaf chunksize root files :
  process_dir chunksize (root, [], files) =
    (Print ("Writing aggregated results out to " +:+ outfile_name root)
       :: GzOpen (outfile_name root)
       :: (for_each files (process_file chunksize root (outfile_name root))).1
       ++ [GzClose (outfile_name root)],
     (for_each files (process_file chunksize root (outfile_name root))).2).
Proof.
  unfold process_dir, with_gzip_open.
  destruct (for_each files _) as [evs r]. reflexivity.
Qed.

Lemma written_flat_map {X : Type} p (g : X -> list event) (l : list X) :
  written p (flat_map g l) = flat_map (fun x => written p (g x)) l.
Proof.
  induction l as [|x l IH]; [reflexivity|].
  cbn [flat_map]. rewrite written_app, IH. reflexivity.
Qed.

Lemma existsb_flat_map {X Y : Type} (P : Y -> bool) (g : X -> list Y) (l : list X) :
  existsb P (flat_map g l) = existsb (fun x => existsb P (g x)) l.
Proof.
  induction l as [|x l IH]; [reflexivity|].
  cbn [flat_map existsb]. rewrite existsb_app, IH. reflexivity.
Qed.

(** Whatever happens, the actions of the files of a subject stay inside
    the block of its stream. *)
Lemma subject_inside chunksize root of_ files :
  Forall (inside_block of_) (for_each files (process_file chunksize root of_)).1.
Proof.
  induction files as [|f files IH]; [constructor|].
  rewrite for_each_cons.
  pose proof (process_file_inside chunksize root of_ f) as Hf.
  destruct (process_file chunksize root of_ f).2 as [[]|e]; cbn [fst];
    [apply Forall_app; split|]; assumption.
Qed.

Lemma subject_written chunksize root of_ files p :
  (for_each files (process_file chunksize root of_)).2 = Done tt ->
  written p (for_each files (process_file chunksize root of_)).1 =
    if decide (of_ = p) then subject_records chunksize files else [].
Proof.
  intros H%for_each_returns. rewrite (for_each_done _ _ H). cbn [fst].
  rewrite written_flat_map. unfold subject_records.
  induction files as [|f files IH].
  - destruct (decide _); reflexivity.
  - apply Forall_cons in H as [_ H]. cbn [flat_map].
    rewrite process_file_written, (IH H).
    destruct (decide (of_ = p)); reflexivity.
Qed.

Lemma process_dir_touches chunksize item p :
  existsb (touches p) (process_dir chunksize item).1 = feeds p item.
Proof.
  destruct item as [[root [|d ds]] files]; [|reflexivity].
  rewrite process_dir_leaf. unfold feeds, is_leaf.
  cbn [fst snd existsb touches andb orb].
  case_bool_decide as Hp; [reflexivity|].
  rewrite existsb_app. cbn [existsb touches orb].
  rewrite (touches_inside (outfile_name root)); [reflexivity| |assumption].
  apply subject_inside.
Qed.

Lemma process_dir_written chunksize item p :
  (process_dir chunksize item).2 = Done tt ->
  written p (process_dir chunksize item).1 = item_records chunksize p item.
Proof.
  destruct item as [[root [|d ds]] files]; [|reflexivity].
  rewrite process_dir_leaf. unfold item_records, feeds, is_leaf.
  cbn [fst snd andb]. intros H.
  pose proof (subject_written _ _ _ _ p H) as Hw.
  unfold written in *. cbn [flat_map payload_for app].
  rewrite flat_map_app, Hw. cbn [flat_map payload_for]. rewrite !app_nil_r.
  case_bool_decide; [rewrite decide_True|rewrite decide_False]; done.
Qed.

(** The run starts from an empty output directory whatever was there. *)
Lemma convert_eq chunksize raw_data before :
  convert chunksize raw_data before =
    let c := for_each (os_walk "./raw_data" raw_data) (process_dir chunksize) in
    {| result := c.2; actions := c.1; processed_data := replay ∅ c.1 |}.
Proof.
  unfold convert.
  destruct before as [d|]; cbn [is_Some bool_decide rmtree makedirs];
    [rewrite bool_decide_eq_true_2 by eauto
    |rewrite bool_decide_eq_false_2 by (intros [? [=]])];
    cbn [rmtree makedirs];
    destruct (for_each _ _) as [evs r]; reflexivity.
Qed.

(** The content of the output directory after a run that returns. *)
Lemma run_content chunksize raw_data before p :
  result (convert chunksize raw_data before) = Done tt ->
  processed_data (convert chunksize raw_data before) !! p =
    if existsb (feeds p) (os_walk "./raw_data" raw_data)
    then Some (artifact_records chunksize (os_walk "./raw_data" raw_data) p)
    else None.
Proof.
  rewrite convert_eq. cbn [result processed_data].
  set (items := os_walk "./raw_data" raw_data).
  intros H%for_each_returns. rewrite (for_each_done _ _ H). cbn [fst].
  rewrite replay_lookup, lookup_empty. cbn [default app].
  rewrite existsb_flat_map, written_flat_map.
  assert (existsb (fun x => existsb (touches p) (process_dir chunksize x).1) items
          = existsb (feeds p) items) as ->.
  { clear H. induction items as [|x items IH]; [reflexivity|].
    cbn [existsb]. rewrite process_dir_touches, IH. reflexivity. }
  assert (flat_map (fun x => written p (process_dir chunksize x).1) items
          = artifact_records chunksize items p) as ->; [|reflexivity].
  unfold artifact_records.
  induction H as [|x items Hx _ IH]; [reflexivity|].
  cbn [flat_map]. rewrite (process_dir_written _ _ _ Hx), IH. reflexivity.
Qed.

(** ** Runs that return *)

Lemma outcome_of_error_done o : outcome_of_error o = Done tt -> o = None.
Proof. destruct o; [discriminate|reflexivity]. Qed.

(** In a run that returns, every file of every subject was decoded without
    an error. *)
Lemma run_files_decode chunksize raw_data before root files f :
  result (convert chunksize raw_data before) = Done tt ->
  (root, [], files) ∈ os_walk "./raw_data" raw_data -> f ∈ files ->
  file_error chunksize f = None.
Proof.
  rewrite convert_eq. cbn [result]. intros H%for_each_returns Hitem Hf.
  rewrite Forall_forall in H. specialize (H _ Hitem).
  rewrite process_dir_leaf in H. cbn [snd] in H.
  apply for_each_returns in H. rewrite Forall_forall in H.
  specialize (H _ Hf). rewrite process_file_result in H.
  apply outcome_of_error_done, H.
Qed.


(** ** What is printed *)

Lemma printed_app evs1 evs2 :
  printed (evs1 ++ evs2) = printed evs1 ++ printed evs2.
Proof. apply omap_app. Qed.

Lemma printed_process_file chunksize root of_ f :
  printed (process_file chunksize root of_ f).1 = ["Processing file " +:+ fname f].
Proof.
  rewrite process_file_eq.
  destruct (frames_of chunksize f) as [[it|e]|]; cbn [fst]; try reflexivity.
  cbn. f_equal. induction (decoded_prefix it) as [|df dfs IH]; [reflexivity|exact IH].
Qed.

Lemma flat_map_ext_elem {X Y : Type} (g h : X -> list Y) (l : list X) :
  (forall x, x ∈ l -> g x = h x) -> flat_map g l = flat_map h l.
Proof.
  induction l as [|x l IH]; [reflexivity|]. intros H.
  cbn [flat_map]. rewrite (H x), IH; [reflexivity| |left].
  intros y Hy. apply H. right. exact Hy.
Qed.

Lemma feeds_leaf p (item : walk_item) :
  feeds p item = true -> exists root files, item = (root, [], files).
Proof.
  destruct item as [[root [|d ds]] files]; [eauto|discriminate].
Qed.

(** ** Chunk-size invariance *)



(** ** Output content and order *)

(** C2, amended.  After a run that returns, the artifact of every
    directory without sub-directories holds exactly the records of the
    directories that feed it, which are all those of its base name, taken
    in the order of the walk, each giving the records of its files in
    file-list order.  The records of a [.json] or [.csv] file are those its
    reader's frames serialise to, frame after frame, all the frames having
    been handed out; another file gives none.  Appending is monotonic: what
    an artifact holds at any point of the run is a prefix of what it holds at
    the end. *)
Theorem output_content_and_order (chunksize : nat) raw_data before :
  result (convert chunksize raw_data before) = Done tt ->
  let items := os_walk "./raw_data" raw_data in
  let w := convert chunksize raw_data before in
  (forall root files,
     (root, [], files) ∈ items ->
     processed_data w !! outfile_name root
     = Some (flat_map
               (fun item : walk_item =>
                  if feeds (outfile_name root) item
                  then flat_map (file_records chunksize) item.2
                  else [])
               items)) /\
  (forall root files f,
     (root, [], files) ∈ items -> f ∈ files ->
     (extension f = ".json" ->
      exists dfs,
        read_json (body f) chunksize = Done (Done <$> dfs) /\
        file_records chunksize f = flat_map to_json dfs) /\
     (extension f = ".csv" ->
      exists dfs,
        read_csv (body f) chunksize = Done (Done <$> dfs) /\
        file_records chunksize f = flat_map to_json dfs) /\
     (extension f <> ".json" -> extension f <> ".csv" ->
      file_records chunksize f = [])) /\
  (forall evs later p content,
     actions w = evs ++ later ->
     replay ∅ evs !! p = Some content ->
     exists more, processed_data w !! p = Some (content ++ more)).
Proof.
  intros Hok items w. split; [|split].
  - intros root files Hitem. unfold w. rewrite (run_content _ _ _ _ Hok).
    fold items.
    assert (existsb (feeds (outfile_name root)) items = true) as ->;
      [|reflexivity].
    apply existsb_exists. exists (root, [], files).
    split; [apply list_elem_of_In, Hitem|].
    unfold feeds. cbn. apply bool_decide_eq_true. reflexivity.
  - intros root files f Hitem Hf.
    pose proof (run_files_decode _ _ _ _ _ _ Hok Hitem Hf) as Herr.
    split; [|split].
    + intros Hj.
      destruct (file_of_reader _ _ _ (frames_of_json chunksize f Hj)) as [He ->].
      rewrite He in Herr. apply reader_clean, Herr.
    + intros Hc.
      destruct (file_of_reader _ _ _ (frames_of_csv chunksize f Hc)) as [He ->].
      rewrite He in Herr. apply reader_clean, Herr.
    + intros Hj Hc. unfold file_records.
      rewrite frames_of_other by assumption. reflexivity.
  - intros evs later p content Hsplit Hcontent. unfold w in *.
    rewrite convert_eq in *. cbn [actions processed_data] in *.
    rewrite Hsplit. apply replay_monotonic, Hcontent.
Qed.

(** ** Extension dispatch *)



(** ** Idempotence *)

(** Without the reset, a second pass over the same source would append
    to what the first one left: the reset is what makes a rerun safe. *)
Lemma append_without_reset evs p content :
  replay ∅ evs !! p = Some content ->
  replay (replay ∅ evs) evs !! p = Some (content ++ content).
Proof.
  intros H. rewrite replay_lookup. rewrite replay_lookup, lookup_empty in H.
  rewrite replay_lookup, lookup_empty.
  destruct (existsb (touches p) evs); [|discriminate].
  cbn [default app] in *. injection H as <-. reflexivity.
Qed.

(** C4.  The output directory is removed and recreated before anything is
    written, so the whole outcome of a run (what it returns, what it
    does, and the records of every artifact) is the same whatever the
    output directory held before; in particular a second run on the
    output of a first one reproduces it. *)
Theorem rerun_idempotent (chunksize : nat) raw_data before other :
  convert chunksize raw_data other = convert chunksize raw_data before /\
  convert chunksize raw_data
    (Some (processed_data (convert chunksize raw_data before)))
  = convert chunksize raw_data before.
Proof. rewrite !convert_eq. split; reflexivity. Qed.

(** ** Unsupported extensions *)


(** ** Which directories give an artifact *)

(** The walk visits every directory of the tree, at every depth. *)
Lemma walk_reaches top t path t' :
  reaches top t path t' ->
  (path, (tree_subdirs t').*1, tree_files t') ∈ walk top t.
Proof.
  induction 1 as [top [fs ds]|top [fs ds] name sub path t' Hsub _ IH].
  - left.
  - cbn [walk]. right. apply list_elem_of_In, in_flat_map.
    exists (name, sub). split; [apply list_elem_of_In, Hsub|].
    apply list_elem_of_In, IH.
Qed.

Lemma reaches_child top t parent u name sub :
  reaches top t parent u -> (name, sub) ∈ tree_subdirs u ->
  reaches top t (posixpath.join parent name) sub.
Proof.
  induction 1 as [top u|top u n s path u' Hsub _ IH]; intros Hname.
  - eapply reaches_down; [exact Hname|apply reaches_here].
  - eapply reaches_down; [exact Hsub|apply IH, Hname].
Qed.

Lemma feeds_elem p (items : list walk_item) :
  existsb (feeds p) items = true <->
  exists root files, (root, [], files) ∈ items /\ outfile_name root = p.
Proof.
  rewrite existsb_exists. split.
  - intros (item & Hin & Hfeeds).
    destruct (feeds_leaf _ _ Hfeeds) as (root & files & ->).
    exists root, files. split; [apply list_elem_of_In, Hin|].
    unfold feeds in Hfeeds. cbn in Hfeeds.
    apply bool_decide_eq_true in Hfeeds. exact Hfeeds.
  - intros (root & files & Hin & <-). exists (root, [], files).
    split; [apply list_elem_of_In, Hin|].
    unfold feeds. cbn. apply bool_decide_eq_true. reflexivity.
Qed.

(** C5.  Every directory of the source tree, at whatever depth, gets its
    turn in the loop.  When it has sub-directories the turn does nothing
    at all; when it has none, a run that returns leaves an artifact
    [processed_data/<basename>.json.gz] for it.  The artifacts in the
    output directory are exactly those of the directories without
    sub-directories. *)
Theorem directory_skip_rule (chunksize : nat) t before :
  result (convert chunksize (Some t) before) = Done tt ->
  (forall path fs ds,
     reaches "./raw_data" t path (Dir fs ds) ->
     (path, ds.*1, fs) ∈ os_walk "./raw_data" (Some t) /\
     (ds <> [] -> process_dir chunksize (path, ds.*1, fs) = ([], Done tt)) /\
     (ds = [] ->
      is_Some (processed_data (convert chunksize (Some t) before)
                 !! ("processed_data/" +:+ posixpath.basename path +:+ ".json.gz")))) /\
  (forall p,
     is_Some (processed_data (convert chunksize (Some t) before) !! p) <->
     exists root files,
       (root, [], files) ∈ os_walk "./raw_data" (Some t) /\
       p = "processed_data/" +:+ posixpath.basename root +:+ ".json.gz").
Proof.
  intros Hok.
  assert (forall p,
     is_Some (processed_data (convert chunksize (Some t) before) !! p) <->
     exists root files,
       (root, [], files) ∈ os_walk "./raw_data" (Some t) /\
       p = "processed_data/" +:+ posixpath.basename root +:+ ".json.gz") as Hdom.
  { intros p. rewrite (run_content _ _ _ p Hok).
    destruct (existsb (feeds p) _) eqn:Hfeeds.
    - apply feeds_elem in Hfeeds as (root & files & Hin & <-).
      split; [|eauto]. intros _. exists root, files.
      split; [exact Hin|apply outfile_name_eq].
    - split; [intros [? [=]]|].
      intros (root & files & Hin & ->).
      assert (existsb (feeds (outfile_name root)) (os_walk "./raw_data" (Some t))
              = true) as Htrue by (apply feeds_elem; eauto).
      rewrite outfile_name_eq in Htrue. congruence. }
  split; [|exact Hdom].
  intros path fs ds Hreach.
  pose proof (walk_reaches _ _ _ _ Hreach) as Hin. cbn [tree_subdirs tree_files] in Hin.
  split; [exact Hin|]. split.
  - destruct ds as [|d ds]; [congruence|reflexivity].
  - intros ->. apply Hdom. eauto.
Qed.

(** ** Nested directories and shared base names *)

(** C10.  The walk goes down to every depth, so after a run that returns,
    a directory without sub-directories found at any depth below
    [./raw_data] has its artifact, named after the last component of its
    path only; and two subjects of the walk with the same base name feed
    one and the same artifact, which holds the records of the first and,
    further on, those of the second. *)
Theorem deep_nesting_shares_artifact (chunksize : nat) t before :
  result (convert chunksize (Some t) before) = Done tt ->
  (forall parent fs siblings name files,
     reaches "./raw_data" t parent (Dir fs siblings) ->
     (name, Dir files []) ∈ siblings ->
     has_char "/" name = false ->
     (posixpath.join parent name, [], files) ∈ os_walk "./raw_data" (Some t) /\
     outfile_name (posixpath.join parent name)
     = "processed_data/" +:+ name +:+ ".json.gz" /\
     is_Some (processed_data (convert chunksize (Some t) before)
                !! ("processed_data/" +:+ name +:+ ".json.gz"))) /\
  (forall items1 root1 files1 items2 root2 files2 items3,
     os_walk "./raw_data" (Some t)
     = items1 ++ (root1, [], files1) :: items2 ++ (root2, [], files2) :: items3 ->
     posixpath.basename root1 = posixpath.basename root2 ->
     outfile_name root1 = outfile_name root2 /\
     exists earlier between later,
       processed_data (convert chunksize (Some t) before) !! outfile_name root1
       = Some (earlier ++ subject_records chunksize files1
                 ++ between ++ subject_records chunksize files2 ++ later)).
Proof.
  intros Hok. split.
  - intros parent fs siblings name files Hreach Hname Hsep.
    assert ((posixpath.join parent name, [], files)
              ∈ os_walk "./raw_data" (Some t)) as Hin.
    { apply (walk_reaches _ _ _ (Dir files [])).
      exact (reaches_child _ _ _ _ _ _ Hreach Hname). }
    assert (outfile_name (posixpath.join parent name)
            = "processed_data/" +:+ name +:+ ".json.gz") as Hout.
    { rewrite outfile_name_eq, path_facts.basename_join by assumption.
      reflexivity. }
    split; [exact Hin|]. split; [exact Hout|].
    rewrite <- Hout, (run_content _ _ _ _ Hok).
    assert (existsb (feeds (outfile_name (posixpath.join parent name)))
              (os_walk "./raw_data" (Some t)) = true) as ->; [|eauto].
    apply feeds_elem. eauto.
  - intros items1 root1 files1 items2 root2 files2 items3 Hwalk Hbase.
    assert (outfile_name root1 = outfile_name root2) as Hout
      by (unfold outfile_name; rewrite Hbase; reflexivity).
    split; [exact Hout|].
    rewrite (run_content _ _ _ _ Hok), Hwalk.
    assert (forall files, feeds (outfile_name root1) (root1, [], files) = true)
      as Hf1 by (intros; unfold feeds; cbn; apply bool_decide_eq_true; reflexivity).
    assert (forall files, feeds (outfile_name root1) (root2, [], files) = true)
      as Hf2 by (intros; unfold feeds; cbn; apply bool_decide_eq_true;
                 symmetry; exact Hout).
    rewrite existsb_app. cbn [existsb]. rewrite Hf1, orb_true_l, orb_true_r.
    unfold artifact_records.
    rewrite flat_map_app. cbn [flat_map]. rewrite flat_map_app. cbn [flat_map].
    unfold item_records at 2 4. rewrite Hf1, Hf2. cbn [snd].
    eexists _, _, _. reflexivity.
Qed.

(** ** One stream per subject *)

(** Whatever its outcome, a loop has run its body on a prefix of the
    list, the last of these iterations possibly cut short by a raise. *)
Lemma for_each_prefix {A : Type} (l : list A) (body : A -> io unit) :
  exists k, (for_each l body).1 = flat_map (fun x => (body x).1) (take k l).
Proof.
  induction l as [|x l [k IH]]; [exists 0%nat; reflexivity|].
  rewrite for_each_cons. destruct (body x).2 as [[]|e] eqn:Hx; cbn [fst].
  - exists (S k). cbn [take flat_map]. rewrite IH. reflexivity.
  - exists 1%nat. cbn [take flat_map]. rewrite take_0. cbn [flat_map].
    rewrite app_nil_r. reflexivity.
Qed.

(** C8, amended.  The actions of a run are those of the directories of
    the walk, one after the other.  A directory with sub-directories has
    none.  A directory without sub-directories opens the stream of its
    artifact once, before anything of its files is read; then come the
    turns of its files, in file-list order, up to the last file or to the
    one whose reader raises; then the stream is closed, once.  The turn of
    a file writes every frame that its reader hands out to that same
    stream, one write per frame, in order, and neither opens nor closes a
    stream.  So the stream spans what one directory contributes: all of the
    artifact when no other directory has the same base name. *)
Theorem single_stream_per_subject (chunksize : nat) raw_data before :
  (exists k,
     actions (convert chunksize raw_data before)
     = flat_map (fun item => (process_dir chunksize item).1)
         (take k (os_walk "./raw_data" raw_data))) /\
  (forall root d ds files,
     (process_dir chunksize (root, d :: ds, files)).1 = []) /\
  (forall root files,
     exists k,
       (process_dir chunksize (root, [], files)).1
       = Print ("Writing aggregated results out to " +:+ outfile_name root)
           :: GzOpen (outfile_name root)
           :: flat_map (file_actions chunksize root (outfile_name root))
                (take k files)
           ++ [GzClose (outfile_name root)] /\
       ((process_dir chunksize (root, [], files)).2 = Done tt ->
        take k files = files) /\
       Forall (inside_block (outfile_name root))
         (flat_map (file_actions chunksize root (outfile_name root))
            (take k files))).
Proof.
  split; [|split].
  - rewrite convert_eq. cbn [actions]. apply for_each_prefix.
  - reflexivity.
  - intros root files. rewrite process_dir_leaf. cbn [fst snd].
    pose proof (subject_inside chunksize root (outfile_name root) files) as Hin.
    assert (exists k,
              (for_each files (process_file chunksize root (outfile_name root))).1
              = flat_map (file_actions chunksize root (outfile_name root))
                  (take k files) /\
              ((for_each files (process_file chunksize root (outfile_name root))).2
               = Done tt -> take k files = files)) as (k & Hk & Hall).
    { destruct (for_each files (process_file chunksize root (outfile_name root))).2
        as [[]|e] eqn:Hres.
      - exists (List.length files). rewrite take_ge by lia.
        apply for_each_returns in Hres. rewrite (for_each_done _ _ Hres).
        split; [|reflexivity]. cbn [fst].
        apply flat_map_ext_elem. intros f _. apply process_file_actions.
      - destruct (for_each_prefix files
                    (process_file chunksize root (outfile_name root))) as [k Hk].
        exists k. split; [|discriminate]. rewrite Hk.
        apply flat_map_ext_elem. intros f _. apply process_file_actions. }
    exists k. rewrite <- Hk. split; [reflexivity|]. split; assumption.
Qed.

(** ** Decoding errors *)

Lemma outcome_of_error_raised o e : outcome_of_error o = Raised e -> o = Some e.
Proof. destruct o; [intros [= ->]; reflexivity|discriminate]. Qed.

Lemma first_error_split it e :
  first_error it = Some e ->
  exists dfs rest,
    it = (Done <$> dfs) ++ Raised e :: rest /\ decoded_prefix it = dfs.
Proof.
  induction it as [|[df|e'] it IH]; cbn [first_error decoded_prefix];
    [discriminate| |].
  - intros (dfs & rest & -> & Hpre)%IH. exists (df :: dfs), rest.
    rewrite Hpre. split; reflexivity.
  - intros [= ->]. exists [], it. split; reflexivity.
Qed.

Lemma for_each_stops {A : Type} (l1 : list A) x l2 (body : A -> io unit) e :
  Forall (fun y => (body y).2 = Done tt) l1 ->
  (body x).2 = Raised e ->
  for_each (l1 ++ x :: l2) body
  = (flat_map (fun y => (body y).1) l1 ++ (body x).1, Raised e).
Proof.
  intros Hl1 Hx. rewrite for_each_app, seq_pair, (for_each_done _ _ Hl1).
  cbn [fst snd]. rewrite for_each_cons, Hx. reflexivity.
Qed.

Lemma clean_returns chunksize root of_ files :
  forallb (clean chunksize) files = true ->
  Forall (fun g => (process_file chunksize root of_ g).2 = Done tt) files.
Proof.
  rewrite forallb_forall. intros Hfiles. apply Forall_forall. intros g Hg.
  apply list_elem_of_In, Hfiles, bool_decide_eq_true in Hg.
  rewrite process_file_result, Hg. reflexivity.
Qed.

Lemma clean_item_returns chunksize items :
  forallb (clean_item chunksize) items = true ->
  Forall (fun item => (process_dir chunksize item).2 = Done tt) items.
Proof.
  rewrite forallb_forall. intros Hitems. apply Forall_forall.
  intros [[root [|d ds]] files] Hitem; [|reflexivity].
  apply list_elem_of_In, Hitems in Hitem. unfold clean_item in Hitem.
  cbn [fst snd] in Hitem. rewrite process_dir_leaf. cbn [snd].
  rewrite (for_each_done _ _ (clean_returns _ _ _ _ Hitem)). reflexivity.
Qed.

(** C7, amended.  A malformed row or line being one on which the reader
    raises: when the reader of a [.json] or [.csv] file of a directory
    without sub-directories raises, at the call or for some frame, and no
    reader raises on the files that come before it in walk and file-list
    order, the run raises that same exception, to which the cell adds
    nothing.  The directories and files before were processed in full, the
    ones after not at all; the last line printed names the offending file;
    the stream of the directory is closed.  Of the offending file, exactly
    the frames handed out before the failure were written, and nothing
    else; and every artifact holds all that was written to it before the
    failure. *)
Theorem decode_error_aborts (chunksize : nat) raw_data before
    items1 root files items2 files1 f files2 e :
  os_walk "./raw_data" raw_data = items1 ++ (root, [], files) :: items2 ->
  files = files1 ++ f :: files2 ->
  forallb (clean_item chunksize) items1 = true ->
  forallb (clean chunksize) files1 = true ->
  (extension f = ".json" /\
   reader_error (read_json (body f) chunksize) = Some e
   \/
   extension f = ".csv" /\
   reader_error (read_csv (body f) chunksize) = Some e) ->
  result (convert chunksize raw_data before) = Raised e /\
  actions (convert chunksize raw_data before)
  = flat_map (fun item => (process_dir chunksize item).1) items1
    ++ Print ("Writing aggregated results out to " +:+ outfile_name root)
    :: GzOpen (outfile_name root)
    :: (flat_map (file_actions chunksize root (outfile_name root)) files1
        ++ file_actions chunksize root (outfile_name root) f)
    ++ [GzClose (outfile_name root)] /\
  last (printed (actions (convert chunksize raw_data before)))
  = Some ("Processing file " +:+ fname f) /\
  (exists r,
     frames_of chunksize f = Some r /\
     (r = Raised e /\ file_records chunksize f = []
      \/
      exists dfs rest,
        r = Done ((Done <$> dfs) ++ Raised e :: rest) /\
        file_records chunksize f = flat_map to_json dfs)) /\
  forall p,
    processed_data (convert chunksize raw_data before) !! p
    = if existsb (feeds p) (items1 ++ [(root, [], files)])
      then Some (artifact_records chunksize items1 p
                 ++ if decide (outfile_name root = p)
                    then subject_records chunksize files1
                         ++ file_records chunksize f
                    else [])
      else None.
Proof.
  intros Hwalk Hfiles Hclean1 Hcleanf Hbad.
  assert (exists r, frames_of chunksize f = Some r /\ reader_error r = Some e)
    as (r & Hr & Hre).
  { destruct Hbad as [[Hj Hbad]|[Hc Hbad]]; eexists; (split; [|exact Hbad]).
    - apply frames_of_json, Hj.
    - apply frames_of_csv, Hc. }
  destruct (file_of_reader _ _ _ Hr) as [Hf Hfrec]. rewrite Hre in Hf.
  pose proof (clean_item_returns _ _ Hclean1) as Hitems1.
  pose proof (clean_returns chunksize root (outfile_name root) _ Hcleanf)
    as Hfiles1.
  assert ((process_file chunksize root (outfile_name root) f).2 = Raised e)
    as Hfres by (rewrite process_file_result, Hf; reflexivity).
  pose proof (for_each_stops files1 f files2 _ e Hfiles1 Hfres) as Hbody.
  rewrite <- Hfiles in Hbody.
  assert ((process_dir chunksize (root, [], files)).2 = Raised e) as Hitem
    by (rewrite process_dir_leaf, Hbody; reflexivity).
  assert (for_each (os_walk "./raw_data" raw_data) (process_dir chunksize)
          = (flat_map (fun item => (process_dir chunksize item).1) items1
             ++ (process_dir chunksize (root, [], files)).1, Raised e)) as Hrun
    by (rewrite Hwalk; apply for_each_stops; assumption).
  rewrite convert_eq. cbn [result actions processed_data]. rewrite Hrun.
  cbn [fst snd]. rewrite process_dir_leaf at 1 2. cbn [fst]. rewrite Hbody.
  cbn [fst].
  assert (flat_map (fun g => (process_file chunksize root (outfile_name root) g).1)
            files1
          = flat_map (file_actions chunksize root (outfile_name root)) files1)
    as Hturns by (apply flat_map_ext_elem; intros g _; apply process_file_actions).
  split; [reflexivity|]. split; [|split; [|split]].
  - rewrite Hturns, process_file_actions. reflexivity.
  - (* the last line printed *)
    rewrite printed_app.
    change (printed (?a :: ?b :: ?l ++ [?c])) with (printed ([a; b] ++ l ++ [c])).
    rewrite !printed_app, printed_process_file. cbn [printed omap].
    rewrite !app_assoc. cbn. rewrite app_nil_r. apply last_snoc.
  - (* the records of the offending file *)
    exists r. split; [exact Hr|]. rewrite Hfrec.
    destruct r as [it|e']; cbn [reader_error reader_records] in *.
    + right. destruct (first_error_split _ _ Hre) as (dfs & rest & -> & Hpre).
      exists dfs, rest. unfold flushed. rewrite Hpre. split; reflexivity.
    + left. injection Hre as ->. split; reflexivity.
  - (* what is on disk *)
    intros p. rewrite replay_lookup, lookup_empty. cbn [default app].
    rewrite !existsb_app, existsb_flat_map, written_app, written_flat_map.
    cbn [existsb]. rewrite orb_false_r, process_dir_touches.
    assert (existsb (fun x => existsb (touches p) (process_dir chunksize x).1) items1
            = existsb (feeds p) items1) as ->.
    { clear. induction items1 as [|x items1 IH]; [reflexivity|].
      cbn [existsb]. rewrite process_dir_touches, IH. reflexivity. }
    match goal with |- (if ?b then _ else _) = (if ?b' then _ else _) =>
      change b' with b; destruct b; [|reflexivity] end.
    f_equal. f_equal.
    + unfold artifact_records. clear -Hitems1.
      induction Hitems1 as [|x items1 Hx _ IH]; [reflexivity|].
      cbn [flat_map]. rewrite (process_dir_written _ _ _ Hx), IH. reflexivity.
    + rewrite process_dir_leaf. cbn [fst]. rewrite Hbody. cbn [fst].
      unfold written. cbn [flat_map payload_for app].
      rewrite !flat_map_app. cbn [flat_map payload_for]. rewrite !app_nil_r.
      fold (written p (process_file chunksize root (outfile_name root) f).1).
      rewrite process_file_written.
      assert (flat_map (payload_for p)
                (flat_map (fun g => (process_file chunksize root (outfile_name root) g).1)
                   files1)
              = if decide (outfile_name root = p)
                then subject_records chunksize files1 else []) as ->.
      { fold (written p (flat_map (fun g => (process_file chunksize root
                                               (outfile_name root) g).1) files1)).
        rewrite written_flat_map. unfold subject_records. clear.
        induction files1 as [|g files1 IH]; [destruct (decide _); reflexivity|].
        cbn [flat_map]. rewrite process_file_written, IH.
        destruct (decide _); reflexivity. }
      destruct (decide _); reflexivity.
Qed.

(** * Further properties of the cell *)

(** ** How a file name selects the reader *)

(** X2.  For a file name [stem.e] without separator, [e] holding no
    period: what the cell does with the file is decided by [e] alone,
    compared as it is written, unless the stem is empty or made of periods
    only, in which case the name has no extension.  With [json] the file is
    given to [pd.read_json] and with [csv] to [pd.read_csv], and every
    frame handed out is written; otherwise the file is announced and
    nothing else.  So [x.json] is read as JSON lines and [x.csv] as CSV,
    while [x.JSON], [.json] and [..csv] are skipped. *)
Theorem reader_by_name (chunksize : nat) (root of_ : string) (f : file)
    (stem e : string) :
  fname f = stem +:+ String "." e ->
  has_char "/" stem = false -> has_char "/" e = false ->
  has_char "." e = false ->
  extension f = (if all_dots stem then EmptyString else String "." e) /\
  process_file chunksize root of_ f
  = if all_dots stem then announced f
    else if decide (e = "json")
         then reading root of_ f (read_json (body f) chunksize)
    else if decide (e = "csv")
         then reading root of_ f (read_csv (body f) chunksize)
    else announced f.
Proof.
intros Hname Hs1 Hs2 Hdot.
assert (extension f = if all_dots stem then EmptyString else String "." e) as Hext.
{ unfold extension, posixpath.splitext. rewrite Hname.
  rewrite (path_facts.rfind_last "." stem e Hdot).
  rewrite (path_facts.absent_rfind "/" (stem +:+ String "." e))
    by (rewrite path_facts.has_char_app; cbn [has_char]; rewrite Hs1, Hs2;
        reflexivity).
  replace (Z.to_nat (-1 + 1)) with (String.length EmptyString) by reflexivity.
  replace (Z.to_nat (Z.of_nat (String.length stem) - (-1 + 1)))
    with (String.length stem) by lia.
  pose proof (splitext_facts.scan_stem EmptyString stem (String "." e)) as Hscan.
  change (EmptyString +:+ stem +:+ String "." e)
    with (stem +:+ String "." e) in Hscan.
  rewrite Hscan.
  assert ((-1 <? Z.of_nat (String.length stem))%Z = true) as ->
    by (apply Z.ltb_lt; lia).
  cbn [andb]. destruct (all_dots stem); cbn [negb snd]; [reflexivity|].
  rewrite Nat2Z.id. apply splitext_facts.slice_from_length. }
split; [exact Hext|]. rewrite process_file_reading. unfold frames_of. rewrite Hext.
destruct (all_dots stem).
- rewrite !decide_False by discriminate. reflexivity.
- destruct (decide (e = "json")) as [->|Hj].
  + rewrite decide_True by reflexivity. reflexivity.
  + rewrite decide_False by (intros [= Heq]; exact (Hj Heq)).
    destruct (decide (e = "csv")) as [->|Hc].
    * rewrite decide_True by reflexivity. reflexivity.
    * rewrite decide_False by (intros [= Heq]; exact (Hc Heq)). reflexivity.
Qed.

(** ** Where the actions of a run come from *)

Lemma for_each_elem {A : Type} (l : list A) (body : A -> io unit) (e : event) :
  e ∈ (for_each l body).1 -> exists x, x ∈ l /\ e ∈ (body x).1.
Proof.
destruct (for_each_prefix l body) as [k ->].
intros (x & Hx & He)%list_elem_of_In%in_flat_map.
exists x. split; [|apply list_elem_of_In, He].
apply list_elem_of_In, elem_of_take in Hx as (i & Hi & _).
eapply list_elem_of_lookup_2, Hi.
Qed.

Lemma process_file_elem chunksize root of_ f e :
  e ∈ (process_file chunksize root of_ f).1 ->
  e = Print ("Processing file " +:+ fname f) \/
  (e = ReadFile (posixpath.join root (fname f)) /\
   is_Some (frames_of chunksize f)) \/
  exists it df,
    frames_of chunksize f = Some (Done it) /\ df ∈ decoded_prefix it /\
    e = GzWrite of_ (to_json df).
Proof.
rewrite process_file_eq.
destruct (frames_of chunksize f) as [[it|e']|]; cbn [fst].
- intros [->|[->|He]%elem_of_cons]%elem_of_cons; [left; reflexivity| |].
  + right. left. split; [reflexivity|eauto].
  + right. right. apply list_elem_of_fmap in He as (df & -> & Hdf).
    exists it, df. repeat split. exact Hdf.
- intros [->|[->|He]%elem_of_cons]%elem_of_cons; [left; reflexivity| |].
  + right. left. split; [reflexivity|eauto].
  + apply elem_of_nil in He. contradiction.
- intros [->|He]%elem_of_cons; [left; reflexivity|].
  apply elem_of_nil in He. contradiction.
Qed.

(** Every action of a run, whether the run returns or raises, is an action
    of a directory of the walk that has no sub-directory: the
    announcement of its artifact, the opening or the closing of its
    stream, or an action of one of its files. *)
Lemma action_origin chunksize raw_data before e :
  e ∈ actions (convert chunksize raw_data before) ->
  exists root files,
    (root, [], files) ∈ os_walk "./raw_data" raw_data /\
    (e = Print ("Writing aggregated results out to " +:+ outfile_name root) \/
     e = GzOpen (outfile_name root) \/
     e = GzClose (outfile_name root) \/
     exists f,
       f ∈ files /\
       e ∈ (process_file chunksize root (outfile_name root) f).1).
Proof.
rewrite convert_eq. cbn [actions].
intros ([[root [|d ds]] files] & Hitem & He)%for_each_elem.
- exists root, files. split; [exact Hitem|].
  rewrite process_dir_leaf in He. cbn [fst] in He.
  apply elem_of_cons in He as [->|He]; [left; reflexivity|].
  apply elem_of_cons in He as [->|He]; [right; left; reflexivity|].
  apply elem_of_app in He as [He|He].
  + right. right. right. apply for_each_elem in He as (f & Hf & He). eauto.
  + apply list_elem_of_singleton in He as ->. right. right. left. reflexivity.
- cbn in He. apply elem_of_nil in He. contradiction.
Qed.

(** X4.  Whatever the run does with [gzip], it does it to a file
    [processed_data/<name>.json.gz] lying directly in the output directory,
    [name] being the base name of a directory of the walk without
    sub-directories: nothing is ever written elsewhere, in particular not
    into the source tree. *)
Theorem writes_stay_in_outdir (chunksize : nat) raw_data before e p :
  e ∈ actions (convert chunksize raw_data before) ->
  gzip_path e = Some p ->
  exists root files,
    (root, [], files) ∈ os_walk "./raw_data" raw_data /\
    p = "processed_data/" +:+ posixpath.basename root +:+ ".json.gz" /\
    has_char "/" (posixpath.basename root) = false.
Proof.
intros He Hp. destruct (action_origin _ _ _ _ He) as (root & files & Hitem & Hcase).
exists root, files. split; [exact Hitem|].
split; [|apply path_facts.basename_no_sep].
rewrite <- outfile_name_eq.
destruct Hcase as [->|[->|[->|(f & Hf & Hin)]]]; cbn in Hp; try congruence.
apply process_file_elem in Hin as [->|[[-> _]|(it & df & _ & _ & ->)]];
  cbn in Hp; congruence.
Qed.

(** X5.  A source file is opened only if it lies in a directory without
    sub-directories and its extension is [.json] or [.csv]: files that sit
    beside sub-directories and files with another extension are never
    read. *)
Theorem reads_only_recognized_leaf_files (chunksize : nat) raw_data before e p :
  e ∈ actions (convert chunksize raw_data before) ->
  read_path e = Some p ->
  exists root files f,
    (root, [], files) ∈ os_walk "./raw_data" raw_data /\ f ∈ files /\
    p = posixpath.join root (fname f) /\
    (extension f = ".json" \/ extension f = ".csv").
Proof.
intros He Hp. destruct (action_origin _ _ _ _ He) as (root & files & Hitem & Hcase).
destruct Hcase as [->|[->|[->|(f & Hf & Hin)]]]; cbn in Hp; try congruence.
apply process_file_elem in Hin as [->|[[-> Hsome]|(it & df & _ & _ & ->)]];
  cbn in Hp; try congruence.
injection Hp as <-. exists root, files, f. repeat split; try assumption.
unfold frames_of in Hsome.
destruct (decide (extension f = ".json")); [left; assumption|].
destruct (decide (extension f = ".csv")); [right; assumption|].
destruct Hsome as [? [=]].
Qed.

(** ** The discipline of the streams *)

Lemma brackets_app held evs1 evs2 :
  brackets held (evs1 ++ evs2)
  = match brackets held evs1 with
    | Some held' => brackets held' evs2
    | None => None
    end.
Proof.
revert held. induction evs1 as [|e evs1 IH]; intros held; [reflexivity|].
destruct e as [s|q|q|q pl|q], held as [h|]; cbn [app brackets];
  try reflexivity; try apply IH;
  destruct (decide (h = q)); try reflexivity; apply IH.
Qed.

Lemma brackets_inside p body :
  Forall (inside_block p) body -> brackets (Some p) body = Some (Some p).
Proof.
induction 1 as [|e body He _ IH]; [reflexivity|].
destruct e as [s|q|q|q pl|q]; cbn in He; cbn [brackets];
  try contradiction; try exact IH.
subst q. rewrite decide_True by reflexivity. exact IH.
Qed.

(** A directory's turn in the loop starts and ends with no stream open. *)
Lemma brackets_process_dir chunksize item :
  brackets None (process_dir chunksize item).1 = Some None.
Proof.
destruct item as [[root [|d ds]] files]; [|reflexivity].
rewrite process_dir_leaf. cbn [fst brackets].
rewrite brackets_app, (brackets_inside _ _ (subject_inside _ _ _ _)).
cbn [brackets]. rewrite decide_True by reflexivity. reflexivity.
Qed.

(** X6.  Every run, also one that a decoding error aborts, respects the
    discipline of the streams: at most one stream is open at a time,
    every write goes to the stream that is open, source files are read
    only while a stream is open, every stream that was opened is closed,
    and none is open when the run stops. *)
Theorem streams_always_closed (chunksize : nat) raw_data before :
  brackets None (actions (convert chunksize raw_data before)) = Some None.
Proof.
rewrite convert_eq. cbn [actions].
destruct (for_each_prefix (os_walk "./raw_data" raw_data) (process_dir chunksize))
  as [k ->].
induction (take k (os_walk "./raw_data" raw_data)) as [|item items IH];
  [reflexivity|].
cbn [flat_map]. rewrite brackets_app, brackets_process_dir. exact IH.
Qed.

(** ** The size of what is buffered *)

Lemma decoded_prefix_elem it df : df ∈ decoded_prefix it -> Done df ∈ it.
Proof.
induction it as [|[df'|e] it IH]; cbn [decoded_prefix];
  try (intros H; apply elem_of_nil in H; contradiction).
intros [->|H]%elem_of_cons; [left|right; apply IH, H].
Qed.

Lemma frame_rows_bounded `{!Chunked} chunksize f it df :
  frames_of chunksize f = Some (Done it) -> df ∈ decoded_prefix it ->
  (List.length (to_json df) <= chunksize)%nat.
Proof.
intros Hframes Hdf%decoded_prefix_elem. unfold frames_of in Hframes.
destruct (decide (extension f = ".json")).
- injection Hframes as Hframes. exact (read_json_chunked _ _ _ _ Hframes Hdf).
- destruct (decide (extension f = ".csv")); [|discriminate].
  injection Hframes as Hframes. exact (read_csv_chunked _ _ _ _ Hframes Hdf).
Qed.

(** X7.  No write of a run carries more records than the chunk size: what
    is held in a buffer at any time is one chunk of one file.  The library
    is one that keeps to the chunk size, [Chunked]. *)
Theorem writes_bounded_by_chunksize `{!Chunked} (chunksize : nat) raw_data before e :
  e ∈ actions (convert chunksize raw_data before) ->
  (payload_size e <= chunksize)%nat.
Proof.
intros He. destruct (action_origin _ _ _ _ He) as (root & files & _ & Hcase).
destruct Hcase as [->|[->|[->|(f & Hf & Hin)]]]; cbn [payload_size]; try lia.
apply process_file_elem in Hin as [->|[[-> _]|(it & df & Hframes & Hdf & ->)]];
  cbn [payload_size]; try lia.
exact (frame_rows_bounded _ _ _ _ Hframes Hdf).
Qed.

(** ** The exceptions of a run *)

Lemma run_raises_file chunksize raw_data before e :
  result (convert chunksize raw_data before) = Raised e ->
  exists root files f,
    (root, [], files) ∈ os_walk "./raw_data" raw_data /\ f ∈ files /\
    file_error chunksize f = Some e.
Proof.
rewrite convert_eq. cbn [result].
intros (items1 & item & items2 & Hwalk & _ & Hitem & _)%for_each_raises.
destruct item as [[root [|d ds]] files]; [|discriminate].
rewrite process_dir_leaf in Hitem. cbn [snd] in Hitem.
apply for_each_raises in Hitem as (files1 & f & files2 & -> & _ & Hf & _).
rewrite process_file_result in Hf. apply outcome_of_error_raised in Hf.
exists root, (files1 ++ f :: files2), f. repeat split; [| |exact Hf].
- rewrite Hwalk. apply elem_of_app. right. left.
- apply elem_of_app. right. left.
Qed.

(** X8.  Errors of the operating system apart, which are not modelled, a
    run raises only what a reader raises, at the call or for some frame, on
    a [.json] or [.csv] file of a directory without sub-directories.  The
    cell itself raises nothing; in particular [os.makedirs] finds no
    directory in its way, the directory having been removed when it was
    there. *)
Theorem exceptions_come_from_readers (chunksize : nat) raw_data before e :
  result (convert chunksize raw_data before) = Raised e ->
  exists root files f,
    (root, [], files) ∈ os_walk "./raw_data" raw_data /\ f ∈ files /\
    (extension f = ".json" /\
     reader_error (read_json (body f) chunksize) = Some e
     \/
     extension f = ".csv" /\
     reader_error (read_csv (body f) chunksize) = Some e).
Proof.
intros (root & files & f & Hitem & Hf & Herr)%run_raises_file.
exists root, files, f. split; [exact Hitem|]. split; [exact Hf|].
destruct (decide (extension f = ".json")) as [Hj|Hj].
- left. split; [exact Hj|].
  destruct (file_of_reader _ _ _ (frames_of_json chunksize f Hj)) as [<- _].
  exact Herr.
- destruct (decide (extension f = ".csv")) as [Hc|Hc].
  + right. split; [exact Hc|].
    destruct (file_of_reader _ _ _ (frames_of_csv chunksize f Hc)) as [<- _].
    exact Herr.
  + unfold file_error in Herr. rewrite frames_of_other in Herr by assumption.
    discriminate.
Qed.

(** ** What a run prints *)

Lemma printed_flat_map {X : Type} (g : X -> list event) (l : list X) :
  printed (flat_map g l) = flat_map (fun x => printed (g x)) l.
Proof.
induction l as [|x l IH]; [reflexivity|].
cbn [flat_map]. rewrite printed_app, IH. reflexivity.
Qed.

Lemma printed_process_dir chunksize item :
  (process_dir chunksize item).2 = Done tt ->
  printed (process_dir chunksize item).1 = item_log item.
Proof.
destruct item as [[root [|d ds]] files]; [|reflexivity].
rewrite process_dir_leaf. cbn [fst snd]. intros H%for_each_returns.
rewrite (for_each_done _ _ H). cbn [fst]. unfold item_log. cbn [fst snd].
change (printed (?a :: ?b :: ?l ++ [?c])) with (printed ([a; b] ++ l ++ [c])).
rewrite !printed_app, printed_flat_map. cbn [printed omap app].
rewrite app_nil_r. f_equal. clear H.
induction files as [|f files IH]; [reflexivity|].
cbn [flat_map fmap list_fmap]. rewrite printed_process_file, IH. reflexivity.
Qed.

(** X9.  A run that returns has printed, for each directory without
    sub-directories in the order of the walk, the line announcing its
    artifact and then one line per file of the directory, in file-list
    order, whether the file is given to a reader or not; it prints
    nothing for a directory that has sub-directories. *)
Theorem progress_log (chunksize : nat) raw_data before :
  result (convert chunksize raw_data before) = Done tt ->
  printed (actions (convert chunksize raw_data before))
  = flat_map item_log (os_walk "./raw_data" raw_data).
Proof.
rewrite convert_eq. cbn [result actions]. intros H%for_each_returns.
rewrite (for_each_done _ _ H). cbn [fst]. rewrite printed_flat_map.
induction H as [|item items Hitem _ IH]; [reflexivity|].
cbn [flat_map]. rewrite (printed_process_dir _ _ Hitem), IH. reflexivity.
Qed.

(** ** Source trees without subjects of the usual shape *)

(** X15.  When [./raw_data] is missing the run returns having done
    nothing but reset the output directory, which it leaves empty.  When
    [./raw_data] has no sub-directory it is itself the subject: a run
    that returns leaves the single artifact
    [processed_data/raw_data.json.gz], holding the records of the files
    that lie directly in [./raw_data]. *)
Theorem source_without_subdirectories (chunksize : nat) files before :
  convert chunksize None before
  = {| result := Done tt; actions := []; processed_data := ∅ |} /\
  (result (convert chunksize (Some (Dir files [])) before) = Done tt ->
   processed_data (convert chunksize (Some (Dir files [])) before)
   = {[ "processed_data/raw_data.json.gz" := subject_records chunksize files ]}).
Proof.
split; [rewrite convert_eq; reflexivity|].
intros Hok. apply map_eq. intros p. rewrite (run_content _ _ _ _ Hok).
cbn [os_walk walk flat_map fmap list_fmap existsb].
unfold artifact_records, item_records, feeds, is_leaf.
cbn [flat_map fst snd andb orb].
change (outfile_name "./raw_data") with "processed_data/raw_data.json.gz".
rewrite orb_false_r, app_nil_r.
case_bool_decide as Hp.
- subst p. rewrite lookup_singleton_eq. reflexivity.
- rewrite lookup_singleton_ne by assumption. reflexivity.
Qed.

(** ** Files beside sub-directories *)

Lemma tree_nested_ind (P : tree -> Prop) :
  (forall fs ds, Forall (fun d : string * tree => P d.2) ds -> P (Dir fs ds)) ->
  forall t, P t.
Proof.
intros H. fix IH 1. intros [fs ds]. apply H.
induction ds as [|d ds IHds]; constructor; [apply IH|exact IHds].
Qed.

Lemma for_each_flat_map {X Y : Type} (g : X -> list Y) (l : list X)
    (body : Y -> io unit) :
  for_each (flat_map g l) body = for_each l (fun x => for_each (g x) body).
Proof.
induction l as [|x l IH]; [reflexivity|].
cbn [flat_map for_each]. rewrite for_each_app, IH. reflexivity.
Qed.

Lemma for_each_map {X Y : Type} (h : X -> Y) (l : list X) (body : Y -> io unit) :
  for_each (map h l) body = for_each l (fun x => body (h x)).
Proof.
induction l as [|x l IH]; [reflexivity|].
cbn [map for_each]. rewrite IH. reflexivity.
Qed.

Lemma for_each_ext {X : Type} (l : list X) (body body' : X -> io unit) :
  Forall (fun x => body x = body' x) l -> for_each l body = for_each l body'.
Proof.
induction 1 as [|x l Hx _ IH]; [reflexivity|].
cbn [for_each]. rewrite Hx, IH. reflexivity.
Qed.

Lemma walk_prune chunksize top t :
  for_each (walk top (prune t)) (process_dir chunksize)
  = for_each (walk top t) (process_dir chunksize).
Proof.
revert top. induction t as [fs ds IH] using tree_nested_ind. intros top.
cbn [prune walk]. rewrite !for_each_cons.
assert (process_dir chunksize
          (top, (map (fun d : string * tree => (d.1, prune d.2)) ds).*1,
           match ds with [] => fs | _ :: _ => [] end)
        = process_dir chunksize (top, ds.*1, fs)) as ->
  by (destruct ds; reflexivity).
assert (for_each
          (flat_map (fun d : string * tree => walk (posixpath.join top d.1) d.2)
             (map (fun d : string * tree => (d.1, prune d.2)) ds))
          (process_dir chunksize)
        = for_each
            (flat_map (fun d : string * tree => walk (posixpath.join top d.1) d.2) ds)
            (process_dir chunksize)) as ->; [|reflexivity].
rewrite !for_each_flat_map, for_each_map. apply for_each_ext.
eapply Forall_impl; [exact IH|]. intros d Hd. cbn [fst snd]. apply Hd.
Qed.

(** X16.  The files that lie in a directory beside sub-directories count
    for nothing, at whatever depth: a run on the source tree and a run on
    the tree without these files return or raise the same, do the same
    actions and leave the same artifacts. *)
Theorem files_beside_subdirectories_ignored (chunksize : nat) t before :
  convert chunksize (Some (prune t)) before = convert chunksize (Some t) before.
Proof.
rewrite !convert_eq. cbn [os_walk]. rewrite walk_prune. reflexivity.
Qed.

(** ** The walk and the directories of the tree *)

(** X17.  [os.walk] yields exactly the directories of the tree, at every
    depth: each item is a directory reached from the top through
    sub-directories, with the names of its sub-directories and its files,
    and every such directory is an item. *)
Theorem walk_exact (top : string) (t : tree) root dirs files :
  (root, dirs, files) ∈ walk top t <->
  exists u,
    reaches top t root u /\ dirs = (tree_subdirs u).*1 /\ files = tree_files u.
Proof.
split.
- revert top. induction t as [fs ds IH] using tree_nested_ind. intros top.
  cbn [walk]. intros [Heq|Hin]%elem_of_cons.
  + injection Heq as -> -> ->. exists (Dir fs ds).
    split; [apply reaches_here|]. split; reflexivity.
  + apply list_elem_of_In, in_flat_map in Hin as (d & Hd & Hin).
    apply list_elem_of_In in Hd, Hin.
    rewrite Forall_forall in IH.
    destruct (IH d Hd _ Hin) as (u & Hreach & Hdirs & Hfiles).
    exists u. split; [|split; assumption].
    apply (reaches_down top (Dir fs ds) d.1 d.2); [|exact Hreach].
    destruct d. exact Hd.
- intros (u & Hreach & -> & ->). apply walk_reaches, Hreach.
Qed.

End cell_facts.

(** * The examples *)

(** ** The sample library keeps to the chunk size *)

Lemma chunks_nil {A : Type} (n : nat) : sample.chunks n (@nil A) = [].
Proof. destruct n; simp chunks; reflexivity. Qed.

(** No chunk is empty and none is longer than the chunk size. *)
Lemma chunks_bounded {A : Type} (n : nat) (l : list A) :
  Forall (fun c => (0 < List.length c <= n)%nat) (sample.chunks n l).
Proof.
  funelim (sample.chunks n l); try constructor; [|assumption].
  rewrite length_take. cbn [List.length]. lia.
Qed.

Lemma objects_length ls rs :
  sample.objects ls = Some rs -> (List.length rs <= List.length ls)%nat.
Proof.
  revert rs. induction ls as [|[|o|] ls IH]; intros rs; cbn [sample.objects].
  - intros [= <-]. reflexivity.
  - intros Hrs%IH. cbn [List.length]. lia.
  - destruct (sample.objects ls) as [rs'|]; [|discriminate].
    intros [= <-]. specialize (IH rs' eq_refl). cbn [List.length]. lia.
  - discriminate.
Qed.

Lemma sample_chunked : @Chunked sample_pandas.
Proof.
  split; intros c n it df; cbn [read_json read_csv to_json sample_pandas];
    unfold sample.serialize; rewrite length_fmap.
  - unfold sample.json_reader. destruct n as [|m]; [discriminate|].
    intros [= <-] (ch & Hch & Hin)%list_elem_of_fmap.
    pose proof (chunks_bounded (S m) (sample.json_lines c)) as Hb.
    rewrite Forall_forall in Hb. specialize (Hb _ Hin).
    unfold sample.json_chunk in Hch.
    destruct (sample.objects ch) as [rs|] eqn:Hrs; [|discriminate].
    injection Hch as ->. cbn [sample.values sample.frame_of_records].
    rewrite length_fmap. apply objects_length in Hrs. lia.
  - unfold sample.csv_reader. destruct n as [|m]; [discriminate|].
    destruct (sample.csv_header c) as [h|]; [|discriminate].
    destruct (sample.csv_rows c) as [|row rows] eqn:Hrows.
    { intros [= <-] [= ->]%list_elem_of_singleton. cbn. lia. }
    intros [= <-] (ch & Hch & Hin)%list_elem_of_fmap.
    pose proof (chunks_bounded (S m) (row :: rows)) as Hb.
    rewrite Forall_forall in Hb. specialize (Hb _ Hin).
    unfold sample.csv_chunk in Hch.
    destruct (mapM (sample.csv_row h) ch) as [vs|] eqn:Hvs; [|discriminate].
    injection Hch as ->. cbn [sample.values]. apply length_mapM in Hvs. lia.
Qed.

(** ** The statements at work *)

Section examples.
#[local] Existing Instance sample_pandas.



(** C2 as stated fails on the cell, twice.  The artifact of a directory
    holds more than the records of that directory when another directory
    has the same base name: the artifact of [./raw_data/a/x] also holds the
    rows found in [./raw_data/b/x].  And what is written for a line is not
    the object of the line but the row of the frame of its chunk: two
    objects with different keys that share a chunk are both written with
    both keys. *)
Lemma artifact_is_not_the_lines_of_its_subject :
  os_walk "./raw_data" (Some deep_tree)
  = [("./raw_data", ["a"; "b"], []);
     ("./raw_data/a", ["x"], []); ("./raw_data/a/x", [], [tracks_json]);
     ("./raw_data/b", ["x"], []); ("./raw_data/b/x", [], [tracks_csv])] /\
  subject_records 1000 [tracks_json]
  = [[("id", SNum 4); ("name", SStr "four")];
     [("id", SNum 5); ("name", SStr "five")]] /\
  processed_data (cell (Some deep_tree) None) !! outfile_name "./raw_data/a/x"
  = Some [[("id", SNum 4); ("name", SStr "four")];
          [("id", SNum 5); ("name", SStr "five")];
          [("id", SNum 1); ("name", SStr "one")];
          [("id", SNum 2); ("name", SStr "two")];
          [("id", SNum 3); ("name", SStr "three")]] /\
  sample.json_lines (body mixed_json)
  = [sample.Object [("a", SStr "x")]; sample.Object [("b", SStr "y")]] /\
  processed_data (cell (Some mixed_keys_tree) None)
    !! outfile_name "./raw_data/tracks"
  = Some [[("a", SStr "x"); ("b", SNull)]; [("a", SNull); ("b", SStr "y")]].
Proof. vm_compute. repeat split. Qed.

Lemma output_content_and_order_witness :
  processed_data (convert 2 (Some sample_tree) None)
    !! "processed_data/tracks.json.gz"
  = Some [[("id", SNum 4); ("name", SStr "four")];
          [("id", SNum 5); ("name", SStr "five")];
          [("id", SNum 1); ("name", SStr "one")];
          [("id", SNum 2); ("name", SStr "two")];
          [("id", SNum 3); ("name", SStr "three")]].
Proof.
  assert (result (convert 2 (Some sample_tree) None) = Done tt) as Hok
    by reflexivity.
  destruct (output_content_and_order 2 (Some sample_tree) None Hok)
    as [Hcontent _].
  exact (Hcontent "./raw_data/tracks"
           [tracks_json; tracks_csv; plain_text "notes.txt"]
           ltac:(vm_compute; apply list_elem_of_In; right; left; reflexivity)).
Defined.




Lemma directory_skip_rule_witness :
  process_dir 1000 ("./raw_data", ["tracks"], []) = ([], Done tt) /\
  is_Some (processed_data (convert 1000 (Some sample_tree) None)
             !! ("processed_data/" +:+ posixpath.basename "./raw_data/tracks"
                 +:+ ".json.gz")).
Proof.
  destruct (directory_skip_rule 1000 sample_tree None eq_refl) as [Hdirs _].
  split.
  - refine (proj1 (proj2 (Hdirs "./raw_data" []
                            [("tracks", Dir [tracks_json; tracks_csv; plain_text "notes.txt"] [])]
                            (reaches_here _ _))) _).
    discriminate.
  - refine (proj2 (proj2 (Hdirs "./raw_data/tracks"
                            [tracks_json; tracks_csv; plain_text "notes.txt"] [] _))
              eq_refl).
    apply (reaches_down "./raw_data" sample_tree "tracks"
             (Dir [tracks_json; tracks_csv; plain_text "notes.txt"] []));
      [left|apply reaches_here].
Defined.

Lemma deep_nesting_shares_artifact_witness :
  outfile_name "./raw_data/a/x" = outfile_name "./raw_data/b/x" /\
  exists earlier between later,
    processed_data (convert 1000 (Some deep_tree) None)
      !! outfile_name "./raw_data/a/x"
    = Some (earlier ++ subject_records 1000 [tracks_json]
              ++ between ++ subject_records 1000 [tracks_csv] ++ later).
Proof.
  destruct (deep_nesting_shares_artifact 1000 deep_tree None eq_refl)
    as [_ Hshare].
  exact (Hshare [("./raw_data", ["a"; "b"], []); ("./raw_data/a", ["x"], [])]
           "./raw_data/a/x" [tracks_json]
           [("./raw_data/b", ["x"], [])]
           "./raw_data/b/x" [tracks_csv] [] eq_refl eq_refl).
Defined.

(** C8 as stated fails on the cell: the artifact [processed_data/x.json.gz]
    is fed by two directories named [x], each of which opens a stream of its
    own, in append mode, and closes it; the artifact is made of two gzip
    streams, and no compression spans it as a whole. *)
Lemma artifact_reopened_for_each_directory :
  List.length
    (filter (fun e => e = GzOpen "processed_data/x.json.gz")
       (actions (cell (Some deep_tree) None))) = 2%nat /\
  actions (cell (Some deep_tree) None)
  = [Print "Writing aggregated results out to processed_data/x.json.gz";
     GzOpen "processed_data/x.json.gz";
     Print "Processing file tracks_1.json";
     ReadFile "./raw_data/a/x/tracks_1.json";
     GzWrite "processed_data/x.json.gz"
       [[("id", SNum 4); ("name", SStr "four")];
        [("id", SNum 5); ("name", SStr "five")]];
     GzClose "processed_data/x.json.gz";
     Print "Writing aggregated results out to processed_data/x.json.gz";
     GzOpen "processed_data/x.json.gz";
     Print "Processing file tracks_0.csv";
     ReadFile "./raw_data/b/x/tracks_0.csv";
     GzWrite "processed_data/x.json.gz"
       [[("id", SNum 1); ("name", SStr "one")];
        [("id", SNum 2); ("name", SStr "two")];
        [("id", SNum 3); ("name", SStr "three")]];
     GzClose "processed_data/x.json.gz"].
Proof. vm_compute. split; reflexivity. Qed.

(** C7 as stated fails on the cell: a malformed line in the first
    chunk of a file and one in its second chunk stop the run with the
    same exception after the same printed lines, so what the run reports
    does not tell the chunk. *)
Lemma decode_error_does_not_identify_chunk :
  failing_json_chunk 1000 bad_first = Some 0%nat /\
  failing_json_chunk 1000 bad_late = Some 1%nat /\
  error_report (cell (Some (Dir [] [("tracks", Dir [bad_first] [])])) None)
  = (Raised ValueError,
     ["Writing aggregated results out to processed_data/tracks.json.gz";
      "Processing file tracks_3.json"]) /\
  error_report (cell (Some (Dir [] [("tracks", Dir [bad_late] [])])) None)
  = (Raised ValueError,
     ["Writing aggregated results out to processed_data/tracks.json.gz";
      "Processing file tracks_3.json"]).
Proof. vm_compute. repeat split. Qed.

Lemma decode_error_aborts_witness :
  result (convert 1 (Some failing_tree) None) = Raised ValueError /\
  last (printed (actions (convert 1 (Some failing_tree) None)))
  = Some "Processing file tracks_4.json" /\
  processed_data (convert 1 (Some failing_tree) None)
    !! "processed_data/tracks.json.gz"
  = Some [[("id", SNum 1); ("name", SStr "one")];
          [("id", SNum 2); ("name", SStr "two")];
          [("id", SNum 3); ("name", SStr "three")];
          [("id", SNum 4)]].
Proof.
  destruct (decode_error_aborts 1 (Some failing_tree) None
              [("./raw_data", ["tracks"], [])] "./raw_data/tracks"
              [tracks_csv; bad_second; tracks_json] []
              [tracks_csv] bad_second [tracks_json] ValueError
              eq_refl eq_refl eq_refl eq_refl
              (or_introl (conj eq_refl eq_refl)))
    as (Hres & _ & Hlast & _ & Hdisk).
  split; [exact Hres|]. split; [exact Hlast|]. rewrite Hdisk. reflexivity.
Defined.

Lemma reader_by_name_witness :
  extension (json_text "tracks_1.JSON" [])
  = (if all_dots "tracks_1" then EmptyString else String "." "JSON") /\
  process_file 1000 "./raw_data/tracks" "processed_data/tracks.json.gz"
    (json_text "tracks_1.JSON" [])
  = if all_dots "tracks_1" then announced (json_text "tracks_1.JSON" [])
    else if decide ("JSON" = "json")
         then reading "./raw_data/tracks" "processed_data/tracks.json.gz"
                (json_text "tracks_1.JSON" [])
                (read_json (body (json_text "tracks_1.JSON" [])) 1000)
    else if decide ("JSON" = "csv")
         then reading "./raw_data/tracks" "processed_data/tracks.json.gz"
                (json_text "tracks_1.JSON" [])
                (read_csv (body (json_text "tracks_1.JSON" [])) 1000)
    else announced (json_text "tracks_1.JSON" []).
Proof.
apply (reader_by_name 1000 "./raw_data/tracks" "processed_data/tracks.json.gz"
         (json_text "tracks_1.JSON" []) "tracks_1" "JSON");
  reflexivity.
Defined.

Lemma writes_stay_in_outdir_witness :
  exists root files,
    (root, [], files) ∈ os_walk "./raw_data" (Some deep_tree) /\
    "processed_data/x.json.gz"
    = "processed_data/" +:+ posixpath.basename root +:+ ".json.gz" /\
    has_char "/" (posixpath.basename root) = false.
Proof.
apply (writes_stay_in_outdir 1000 (Some deep_tree) None
         (GzOpen "processed_data/x.json.gz") "processed_data/x.json.gz");
  [|reflexivity].
vm_compute. apply list_elem_of_In. right. left. reflexivity.
Defined.

Lemma reads_only_recognized_leaf_files_witness :
  exists root files f,
    (root, [], files) ∈ os_walk "./raw_data" (Some sample_tree) /\ f ∈ files /\
    "./raw_data/tracks/tracks_0.csv" = posixpath.join root (fname f) /\
    (extension f = ".json" \/ extension f = ".csv").
Proof.
apply (reads_only_recognized_leaf_files 1000 (Some sample_tree) None
         (ReadFile "./raw_data/tracks/tracks_0.csv"));
  [|reflexivity].
vm_compute. apply list_elem_of_In. do 6 right. left. reflexivity.
Defined.

Lemma writes_bounded_by_chunksize_witness :
  (payload_size
     (GzWrite "processed_data/tracks.json.gz"
        [[("id", SNum 1); ("name", SStr "one")];
         [("id", SNum 2); ("name", SStr "two")]]) <= 2)%nat.
Proof.
apply (@writes_bounded_by_chunksize sample_pandas sample_chunked 2
         (Some sample_tree) None).
vm_compute. apply list_elem_of_In. do 7 right. left. reflexivity.
Defined.

Lemma exceptions_come_from_readers_witness :
  exists root files f,
    (root, [], files) ∈ os_walk "./raw_data" (Some failing_tree) /\ f ∈ files /\
    (extension f = ".json" /\
     reader_error (read_json (body f) 1000) = Some ValueError
     \/
     extension f = ".csv" /\
     reader_error (read_csv (body f) 1000) = Some ValueError).
Proof.
apply (exceptions_come_from_readers 1000 (Some failing_tree) None ValueError).
reflexivity.
Defined.

Lemma progress_log_witness :
  printed (actions (convert 1000 (Some sample_tree) None))
  = ["Writing aggregated results out to processed_data/tracks.json.gz";
     "Processing file tracks_1.json";
     "Processing file tracks_0.csv";
     "Processing file notes.txt"].
Proof. apply (progress_log 1000 (Some sample_tree) None). reflexivity. Defined.

Lemma source_without_subdirectories_witness :
  processed_data (convert 1000 (Some (Dir [tracks_csv] [])) None)
  = {[ "processed_data/raw_data.json.gz" := subject_records 1000 [tracks_csv] ]}.
Proof.
apply (source_without_subdirectories 1000 [tracks_csv] None). reflexivity.
Defined.

End examples.
